(** * Mock AMF and SCTP-to-TCP bridge: the NGAP codec and the connection handlers

    Shallow embedding of [scripts/mock_amf.py] and
    [scripts/sctp_to_tcp_bridge.py].  Python [bytes] are lists of
    [Byte.byte], Python [int]s are [Z], a Python [str] is the list of its
    Unicode code points, a raised exception is the [Raise] branch of
    [result], and the [connections] dict is a [gmap] from the connection
    identifier to the socket handle. *)

From Stdlib Require Import ZArith NArith List String Ascii Lia Bool.
From Stdlib.Strings Require Import Byte.
From stdpp Require Import base option gmap strings pretty.
Import ListNotations.

Local Open Scope Z_scope.

(** ** Python values and exceptions *)

Module Py.

Inductive exn : Type :=
| ValueError          (* bytearray([...]) with an item outside range(0, 256) *)
| IndexError          (* data[i] past the end *)
| StructError         (* struct.unpack on a buffer of the wrong size *)
| UnicodeEncodeError  (* str.encode on a lone surrogate *)
| SocketTimeout       (* socket.timeout *)
| OSError.            (* any other exception of a socket call *)

Inductive result (A : Type) : Type :=
| Ok (a : A)
| Raise (e : exn).
Arguments Ok {A} a.
Arguments Raise {A} e.

Definition bind {A B} (r : result A) (k : A -> result B) : result B :=
  match r with
  | Ok a => k a
  | Raise e => Raise e
  end.

Definition bytes := list byte.

(** [len(x)] is a Python int. *)
Definition len {A} (l : list A) : Z := Z.of_nat (length l).

(** [data[i]] on a bytes object is an int in range(0, 256). *)
Definition int_of_byte (b : byte) : Z := Z.of_N (Byte.to_N b).

Definition getitem (data : bytes) (i : nat) : result Z :=
  match nth_error data i with
  | Some b => Ok (int_of_byte b)
  | None => Raise IndexError
  end.

(** [data[lo:hi]] never raises. *)
Definition slice (data : bytes) (lo hi : nat) : bytes :=
  firstn (hi - lo) (skipn lo data).

(** One item of [bytearray([...])]: "byte must be in range(0, 256)". *)
Definition byte_of_int (z : Z) : result byte :=
  if z <? 0 then Raise ValueError
  else match Byte.of_N (Z.to_N z) with
       | Some b => Ok b
       | None => Raise ValueError
       end.

Fixpoint bytearray (items : list Z) : result bytes :=
  match items with
  | [] => Ok []
  | z :: rest =>
      bind (byte_of_int z) (fun b =>
      bind (bytearray rest) (fun bs => Ok (b :: bs)))
  end.

(** [struct.unpack('>H', buf)[0]]: two bytes, most significant first. *)
Definition unpack_be_H (buf : bytes) : result Z :=
  match buf with
  | [hi; lo] => Ok (Z.lor (Z.shiftl (int_of_byte hi) 8) (int_of_byte lo))
  | _ => Raise StructError
  end.

(** A [str] is a sequence of code points, each in range(0, 0x110000). *)
Definition str := list N.

Definition str_of_string (s : string) : str :=
  map N_of_ascii (list_ascii_of_string s).

(** The low eight bits of [n] as a byte. *)
Definition low_byte (n : N) : byte :=
  match Byte.of_N (n mod 256)%N with
  | Some b => b
  | None => x00
  end.

Definition continuation (n : N) : byte :=
  low_byte (N.lor 0x80 (N.land n 0x3f)).

(** [chr(c).encode('utf-8')]. *)
Definition utf8_encode_char (c : N) : result bytes :=
  (if c <? 0x80 then Ok [low_byte c]
   else if c <? 0x800 then
     Ok [low_byte (N.lor 0xc0 (N.shiftr c 6)); continuation c]
   else if c <? 0x10000 then
     if (0xd800 <=? c) && (c <=? 0xdfff) then Raise UnicodeEncodeError
     else Ok [low_byte (N.lor 0xe0 (N.shiftr c 12));
              continuation (N.shiftr c 6); continuation c]
   else if c <? 0x110000 then
     Ok [low_byte (N.lor 0xf0 (N.shiftr c 18));
         continuation (N.shiftr c 12);
         continuation (N.shiftr c 6); continuation c]
   else Raise ValueError)%N.

(** [s.encode('utf-8')]. *)
Fixpoint utf8_encode (s : str) : result bytes :=
  match s with
  | [] => Ok []
  | c :: rest =>
      bind (utf8_encode_char c) (fun bs =>
      bind (utf8_encode rest) (fun tl => Ok (bs ++ tl)))
  end.

(** [s.isascii()]. *)
Definition isascii (s : str) : bool := forallb (fun c => (c <? 0x80)%N) s.

End Py.

Import Py.

Notation "'let!' x ':=' r 'in' k" := (Py.bind r (fun x => k))
  (at level 10, x name, r at level 100, k at level 200).

(** ** class NGAPMessage *)

Module NGAPMessage.

Definition NG_SETUP_REQUEST : Z := 21.
Definition NG_SETUP_RESPONSE : Z := 21.
Definition NG_SETUP_FAILURE : Z := 21.

(** The dict returned by [decode_header]. *)
Record header : Type := {
  procedure_code : Z;
  criticality : Z;
  header_length : Z   (* key 'length' *)
}.

Definition decode_header (data : bytes) : result (option header) :=
  if len data <? 4 then Ok None
  else
    let! pc := getitem data 0 in
    let! cr := getitem data 1 in
    let! ln := unpack_be_H (slice data 2 4) in
    Ok (Some {| procedure_code := pc; criticality := cr; header_length := ln |}).

Definition create_ng_setup_response : bytes :=
  [ x20; x15;                  (* successfulOutcome, NG Setup Response *)
    x00; x2e;                  (* Length *)
    x00; x00; x04;             (* Protocol IE Container *)
    x00; x01;                  (* AMF Name *)
    x00; x0a;                  (* Length *)
    x00; x08; x6d; x6f; x63; x6b; x2d; x61; x6d; x66;  (* "mock-amf" *)
    x00; x60;                  (* Served GUAMI List *)
    x00; x0e;                  (* Length *)
    x00; x0c;
    x00; x00; x01;             (* MCC=001 *)
    x01;                       (* MNC=01 *)
    x02;                       (* AMF Region ID=2 *)
    x00; x01;                  (* AMF Set ID=1 *)
    x00;                       (* AMF Pointer=0 *)
    x00; x56;                  (* Relative AMF Capacity *)
    x40; x01;                  (* Length *)
    xff ]%byte.                (* Capacity=255 *)

Definition default_cause : str := str_of_string "Unknown PLMN".

Definition create_ng_setup_failure (cause : str) : result bytes :=
  let! cause_bytes := utf8_encode cause in
  let! response := bytearray
    [ 0x40; 0x15;                    (* unsuccessfulOutcome, NG Setup Failure *)
      0x00; len cause_bytes + 8;     (* Length *)
      0x00; 0x00; 0x01;              (* Protocol IE Container *)
      0x00; 0x0f;                    (* Cause *)
      0x40; len cause_bytes + 1;     (* Length *)
      0x00 ] in                      (* Cause choice: misc *)
  Ok (response ++ cause_bytes).

End NGAPMessage.

(** ** Sockets, threads and the environment

    A handler is run against a script that fixes what every socket call of
    the run returns or raises; the handler answers with the list of calls it
    made.  A script entry is consumed per loop iteration entered while
    [self.running] is true, and the end of the script is the moment
    [self.running] is observed false.

    Left out: the [log] calls, which only print.  Taken for granted:
    [send] takes the whole buffer it is given, [Thread.start] starts the
    thread, and a [close] outside of [stop] does not raise; for the bridge
    handler [handle_tcp_to_sctp_io] lifts the last of these.  The two
    statements a handler runs under [self.lock] are single events. *)

Module Net.

Definition handle := nat.

(** An [(host, port)] pair as [accept] returns it. *)
Definition address : Type := string * Z.

(** A socket object: [gettimeout()] is [None] in blocking mode, the value
    last given to [settimeout] otherwise.  Both listeners only use
    whole seconds (1.0 and 5.0). *)
Record socket : Type := {
  fileno : handle;
  gettimeout : option positive
}.

Inductive target : Type :=
| handle_ngap_connection_target
| handle_tcp_to_sctp_target.

Inductive event : Type :=
| SetTimeout (s : handle) (t : option positive)
| Accept (s : handle) (t : option positive)
| Recv (s : handle) (bufsize : Z) (t : option positive) (r : result bytes)
| Send (s : handle) (data : bytes)
| Select (rlist xlist : list handle) (t : option positive)
| Close (s : handle)
| Connect (s : handle) (t : option positive)
| ThreadStart (f : target) (conn : handle) (addr : address)
| Register (conn_id : string) (conn : handle)
    (* with self.lock: self.connections[conn_id] = conn *)
| Unregister (conn_id : string).
    (* with self.lock: if conn_id in self.connections: del ... *)

Definition trace := list event.

(** What the environment does to a call that returns nothing. *)
Inductive outcome : Type :=
| Returns
| Raises (e : exn).

(** What the environment does to a [recv]: the bytes pending on the
    socket (none when the peer has closed), or an exception. *)
Inductive recv_outcome : Type :=
| Pending (avail : bytes)
| RecvRaises (e : exn).

(** A computation that performs socket calls: the calls made, and the
    value returned or the exception left propagating. *)
Definition io (A : Type) : Type := trace * result A.

Definition ret {A} (a : A) : io A := ([], Ok a).

Definition lift {A} (r : result A) : io A := ([], r).

Definition iobind {A B} (m : io A) (k : A -> io B) : io B :=
  match m with
  | (t1, Ok a) => let (t2, r) := k a in (t1 ++ t2, r)
  | (t1, Raise e) => (t1, Raise e)
  end.

(** [try: m  except ...: handler(e)]. *)
Definition try_except {A} (m : io A) (handler : exn -> io A) : io A :=
  match m with
  | (t1, Ok a) => (t1, Ok a)
  | (t1, Raise e) => let (t2, r) := handler e in (t1 ++ t2, r)
  end.

Definition call (ev : event) (o : outcome) : io unit :=
  ([ev], match o with Returns => Ok tt | Raises e => Raise e end).

Definition settimeout (s : socket) (t : option positive) (o : outcome)
  : io socket :=
  iobind (call (SetTimeout (fileno s) t) o) (fun _ =>
  ret {| fileno := fileno s; gettimeout := t |}).

(** [s.recv(bufsize)] returns at most [bufsize] of the pending bytes. *)
Definition recv (s : socket) (bufsize : Z) (o : recv_outcome) : io bytes :=
  let r := match o with
           | Pending avail => Ok (firstn (Z.to_nat bufsize) avail)
           | RecvRaises e => Raise e
           end in
  ([Recv (fileno s) bufsize (gettimeout s) r], r).

Definition send (s : socket) (data : bytes) (o : outcome) : io unit :=
  call (Send (fileno s) data) o.

Definition close (s : socket) (o : outcome) : io unit :=
  call (Close (fileno s)) o.

Inductive accept_outcome : Type :=
| Accepted (fd : handle) (peer : address)
| AcceptRaises (e : exn).

(** [sock.accept()].  No default timeout is ever set, and the listening
    socket is in timeout mode: the socket returned is in blocking mode. *)
Definition accept (sock : socket) (o : accept_outcome)
  : io (socket * address) :=
  ([Accept (fileno sock) (gettimeout sock)],
   match o with
   | Accepted fd peer => Ok ({| fileno := fd; gettimeout := None |}, peer)
   | AcceptRaises e => Raise e
   end).

Definition thread_start (f : target) (conn : socket) (peer : address)
  : io unit :=
  ([ThreadStart f (fileno conn) peer], Ok tt).

(** The [connections] dict after a thread has made the calls of [t]:
    only the two locked statements change it. *)
Definition apply_event (connections : gmap string handle) (ev : event)
  : gmap string handle :=
  match ev with
  | Register conn_id conn => <[conn_id := conn]> connections
  | Unregister conn_id =>
      match connections !! conn_id with
      | Some _ => delete conn_id connections
      | None => connections
      end
  | _ => connections
  end.

Definition registry_after (t : trace) (connections : gmap string handle)
  : gmap string handle :=
  fold_left apply_event t connections.

(** [x in xs] for socket objects. *)
Definition mem (s : socket) (l : list handle) : bool :=
  existsb (Nat.eqb (fileno s)) l.

End Net.

Import Net.

Notation "'do!' x ':=' m 'in' k" := (Net.iobind m (fun x => k))
  (at level 10, x name, m at level 100, k at level 200).
Notation "'do!' ' p ':=' m 'in' k" := (Net.iobind m (fun x => let 'p := x in k))
  (at level 10, p pattern, m at level 100, k at level 200).
Notation "m ';;;' k" := (Net.iobind m (fun _ => k))
  (at level 100, k at level 200, right associativity).

(** ** class MockAMF (scripts/mock_amf.py) *)

Module MockAMF.

Record state : Type := {
  addr : string;
  port : Z;
  running : bool;
  connections : gmap string handle
}.

(** [__init__] *)
Definition init (a : string) (p : Z) : state :=
  {| addr := a; port := p; running := false; connections := ∅ |}.

(** [f"{addr[0]}:{addr[1]}"] *)
Definition conn_id (peer : address) : string :=
  (peer.1 +:+ ":" +:+ pretty peer.2)%string.

Definition keepalive : bytes := [x00; x00; x00; x00]%byte.

(** [len(data) > 4 and data[0] == 0x00 and data[1] == 0x15] *)
Definition looks_like_ng_setup_request (data : bytes) : result bool :=
  if len data >? 4 then
    let! b0 := getitem data 0 in
    if b0 =? 0x00 then
      let! b1 := getitem data 1 in
      Ok (b1 =? 0x15)
    else Ok false
  else Ok false.

Definition handle_ng_setup_request
    (conn : socket) (data : bytes) (on_send : outcome) : io bool :=
  do! looks := lift (looks_like_ng_setup_request data) in
  if (looks : bool) then
    let response := NGAPMessage.create_ng_setup_response in
    send conn response on_send ;;;
    ret true
  else
    do! response :=
      lift (NGAPMessage.create_ng_setup_failure NGAPMessage.default_cause) in
    send conn response on_send ;;;
    ret false.

(** What the environment does during one pass of the receive loop. *)
Record iteration : Type := {
  on_settimeout : outcome;
  on_recv : recv_outcome;
  on_send : outcome;        (* the reply sent by handle_ng_setup_request *)
  on_keepalive : outcome    (* the keepalive sent after a receive timeout *)
}.

Inductive flow : Type :=
| Next (ng_setup_complete : bool)   (* back to the loop head *)
| Break.

(** The statements of the inner [try] of the receive loop. *)
Definition on_data
    (conn : socket) (ng_setup_complete : bool) (env : iteration) : io flow :=
  do! data := recv conn 4096 (on_recv env) in
  match data with
  | [] => ret Break
  | _ :: _ =>
      if negb ng_setup_complete && (len data >? 4) then
        do! header := lift (NGAPMessage.decode_header data) in
        match header with
        | Some h =>
            if NGAPMessage.procedure_code h =? NGAPMessage.NG_SETUP_REQUEST
            then
              do! done := handle_ng_setup_request conn data (on_send env) in
              ret (Next done)
            else ret (Next ng_setup_complete)
        | None => ret (Next ng_setup_complete)
        end
      else ret (Next ng_setup_complete)
  end.

(** One pass of the [while self.running] body.  An exception left
    propagating reaches the outer [except Exception]. *)
Definition loop_body
    (conn : socket) (ng_setup_complete : bool) (env : iteration)
  : io (socket * flow) :=
  do! conn := settimeout conn (Some 5%positive) (on_settimeout env) in
  do! f := try_except (on_data conn ng_setup_complete env)
    (fun e =>
       match e with
       | SocketTimeout =>
           if ng_setup_complete
           then send conn keepalive (on_keepalive env) ;;;
                ret (Next ng_setup_complete)
           else ret (Next ng_setup_complete)
       | _ => ret Break
       end) in
  ret (conn, f).

Fixpoint receive_loop
    (conn : socket) (ng_setup_complete : bool) (script : list iteration)
  : io unit :=
  match script with
  | [] => ret tt
  | env :: rest =>
      do! cf := loop_body conn ng_setup_complete env in
      match cf with
      | (conn, Next c) => receive_loop conn c rest
      | (_, Break) => ret tt
      end
  end.

(** The handler thread: register, serve, and in the [finally] clause
    unregister and close.  Whatever is left propagating out of the loop
    is logged by the outer [except Exception]. *)
Definition handle_ngap_connection
    (conn : socket) (peer : address) (script : list iteration) : trace :=
  let conn_id := conn_id peer in
  [Register conn_id (fileno conn)]
  ++ fst (receive_loop conn false script)
  ++ [Unregister conn_id; Close (fileno conn)].

Fixpoint accept_loop (sock : socket) (script : list accept_outcome)
  : io unit :=
  match script with
  | [] => ret tt
  | o :: rest =>
      do! sock := try_except
        (do! sock := settimeout sock (Some 1%positive) Returns in
         do! ' (conn, peer) := accept sock o in
         thread_start handle_ngap_connection_target conn peer ;;;
         ret sock)
        (fun _ => ret {| fileno := fileno sock;
                         gettimeout := Some 1%positive |}) in
      accept_loop sock rest
  end.

(** [start]: [on_bind] is the outcome of [bind]/[listen]. *)
Definition start
    (self : state) (listener : handle) (on_bind : outcome)
    (script : list accept_outcome) : state * trace :=
  let self := {| addr := addr self; port := port self; running := true;
                 connections := connections self |} in
  let sock := {| fileno := listener; gettimeout := None |} in
  let (t, _) :=
    match on_bind with
    | Returns => accept_loop sock script
    | Raises e => lift (Raise e)
    end in
  (self, t ++ [Close listener]).

(** The [for] loop of [stop]: every [close] sits in a [try] whose bare
    [except] passes. *)
Fixpoint close_each
    (items : list (string * handle)) (on_close : handle -> outcome)
  : io unit :=
  match items with
  | [] => ret tt
  | (_, conn) :: rest =>
      try_except (call (Close conn) (on_close conn)) (fun _ => ret tt) ;;;
      close_each rest on_close
  end.

(** [stop]: the state left behind, the calls made, and whether an
    exception escapes. *)
Definition stop (self : state) (on_close : handle -> outcome)
  : state * io unit :=
  let self := {| addr := addr self; port := port self; running := false;
                 connections := connections self |} in
  match close_each (map_to_list (connections self)) on_close with
  | (t, Ok _) =>
      ({| addr := addr self; port := port self; running := false;
          connections := ∅ |}, (t, Ok tt))
  | (t, Raise e) => (self, (t, Raise e))
  end.

End MockAMF.

(** ** class SCTPBridge (scripts/sctp_to_tcp_bridge.py) *)

Module SCTPBridge.

Record state : Type := {
  tcp_addr : string;
  tcp_port : Z;
  sctp_addr : string;
  sctp_port : Z;
  running : bool;
  connections : gmap string handle
}.

(** [__init__] *)
Definition init (ta : string) (tp : Z) (sa : string) (sp : Z) : state :=
  {| tcp_addr := ta; tcp_port := tp; sctp_addr := sa; sctp_port := sp;
     running := false; connections := ∅ |}.

Definition conn_id (peer : address) : string :=
  (peer.1 +:+ ":" +:+ pretty peer.2)%string.

(** What [import sctp], [sctp.sctpsocket()] and [connect] come to. *)
Inductive probe_outcome : Type :=
| Connected (fd : handle)
| ImportFails
| ConnectFails (fd : handle) (e : exn).

Definition try_sctp_connection (o : probe_outcome) : io (option socket) :=
  match o with
  | Connected fd =>
      ([Connect fd None], Ok (Some {| fileno := fd; gettimeout := None |}))
  | ImportFails => ret None
  | ConnectFails fd _ => ([Connect fd None], Ok None)
  end.

Inductive select_outcome : Type :=
| Ready (readable exceptional : list handle)
| SelectRaises (e : exn).

(** [select.select(rlist, [], xlist, timeout)] *)
Definition select
    (rlist xlist : list socket) (t : positive) (o : select_outcome)
  : io (list handle * list handle) :=
  ([Select (map fileno rlist) (map fileno xlist) (Some t)],
   match o with
   | Ready readable exceptional => Ok (readable, exceptional)
   | SelectRaises e => Raise e
   end).

(** What the environment does during one pass of the bridge loop. *)
Record wake : Type := {
  on_select : select_outcome;
  on_tcp_recv : recv_outcome;
  on_sctp_send : outcome;
  on_sctp_recv : recv_outcome;
  on_tcp_send : outcome
}.

Inductive flow : Type :=
| Continue
| Break.

(** [data = src.recv(4096); if not data: break; dst.send(data)] *)
Definition forward
    (src dst : socket) (on_recv : recv_outcome) (on_send : outcome)
  : io flow :=
  do! data := recv src 4096 on_recv in
  match data with
  | [] => ret Break
  | _ :: _ => send dst data on_send ;;; ret Continue
  end.

Definition bridge_body (tcp_conn sctp_sock : socket) (w : wake) : io flow :=
  do! ' (readable, exceptional) :=
    select [tcp_conn; sctp_sock] [tcp_conn; sctp_sock] 1 (on_select w) in
  do! f := (if mem tcp_conn readable
            then forward tcp_conn sctp_sock (on_tcp_recv w) (on_sctp_send w)
            else ret Continue) in
  match f with
  | Break => ret Break
  | Continue =>
      do! f := (if mem sctp_sock readable
                then forward sctp_sock tcp_conn (on_sctp_recv w) (on_tcp_send w)
                else ret Continue) in
      match f with
      | Break => ret Break
      | Continue =>
          match exceptional with
          | [] => ret Continue
          | _ :: _ => ret Break
          end
      end
  end.

Fixpoint bridge_loop (tcp_conn sctp_sock : socket) (script : list wake)
  : io unit :=
  match script with
  | [] => ret tt
  | w :: rest =>
      do! f := bridge_body tcp_conn sctp_sock w in
      match f with
      | Continue => bridge_loop tcp_conn sctp_sock rest
      | Break => ret tt
      end
  end.

Definition create_mock_ng_setup_response : bytes :=
  [x20; x15; x00; x20]%byte ++ repeat x00 32.

(** What the environment does to the fallback handler. *)
Record mock_env : Type := {
  on_first_recv : recv_outcome;
  on_response : outcome;
  on_later_recv : list recv_outcome
}.

Fixpoint keep_alive (conn : socket) (script : list recv_outcome) : io unit :=
  match script with
  | [] => ret tt
  | o :: rest =>
      do! f := try_except
        (do! data := recv conn 4096 o in
         match data with
         | [] => ret Break
         | _ :: _ => ret Continue
         end)
        (fun e =>
           match e with
           | SocketTimeout => ret Continue
           | _ => ret Break
           end) in
      match f with
      | Continue => keep_alive conn rest
      | Break => ret tt
      end
  end.

Definition handle_mock_amf (conn : socket) (peer : address) (env : mock_env)
  : io unit :=
  try_except
    (do! data := recv conn 4096 (on_first_recv env) in
     match data with
     | [] => ret tt
     | _ :: _ =>
         let response := create_mock_ng_setup_response in
         send conn response (on_response env) ;;;
         keep_alive conn (on_later_recv env)
     end)
    (fun _ => ret tt).

(** What the environment does to one handler thread. *)
Record handler_env : Type := {
  on_probe : probe_outcome;
  wakes : list wake;      (* used in bridge mode *)
  mock : mock_env         (* used in the fallback *)
}.

Definition handle_tcp_to_sctp
    (tcp_conn : socket) (peer : address) (env : handler_env) : trace :=
  let (t0, probed) := try_sctp_connection (on_probe env) in
  let t :=
    match probed with
    | Ok (Some sctp_sock) =>
        fst (bridge_loop tcp_conn sctp_sock (wakes env))
        ++ [Close (fileno sctp_sock)]
    | _ => fst (handle_mock_amf tcp_conn peer (mock env))
    end in
  t0 ++ t ++ [Close (fileno tcp_conn)].

(** [handle_tcp_to_sctp] with its two [close] calls free to raise: the
    calls made, and the exception that leaves the thread, if any.  The
    loop sits in [try ... except Exception ... finally: sctp_sock.close()];
    [tcp_conn.close()] comes after that statement and after the fallback. *)
Definition handle_tcp_to_sctp_io
    (tcp_conn : socket) (peer : address) (env : handler_env)
    (on_sctp_close on_tcp_close : outcome) : io unit :=
  do! sctp_sock := try_sctp_connection (on_probe env) in
  match sctp_sock with
  | Some sctp_sock =>
      (fst (bridge_loop tcp_conn sctp_sock (wakes env)), Ok tt) ;;;
      close sctp_sock on_sctp_close
  | None =>
      (fst (handle_mock_amf tcp_conn peer (mock env)), Ok tt)
  end ;;;
  close tcp_conn on_tcp_close.

Fixpoint accept_loop (sock : socket) (script : list accept_outcome)
  : io unit :=
  match script with
  | [] => ret tt
  | o :: rest =>
      do! sock := try_except
        (do! sock := settimeout sock (Some 1%positive) Returns in
         do! ' (conn, peer) := accept sock o in
         thread_start handle_tcp_to_sctp_target conn peer ;;;
         ret sock)
        (fun _ => ret {| fileno := fileno sock;
                         gettimeout := Some 1%positive |}) in
      accept_loop sock rest
  end.

Definition start
    (self : state) (listener : handle) (on_bind : outcome)
    (probe : probe_outcome) (script : list accept_outcome) : state * trace :=
  let self := {| tcp_addr := tcp_addr self; tcp_port := tcp_port self;
                 sctp_addr := sctp_addr self; sctp_port := sctp_port self;
                 running := true; connections := connections self |} in
  let sock := {| fileno := listener; gettimeout := None |} in
  let (t, _) :=
    match on_bind with
    | Returns =>
        do! test_sock := try_sctp_connection probe in
        match test_sock with
        | Some s => close s Returns
        | None => ret tt
        end ;;;
        accept_loop sock script
    | Raises e => lift (Raise e)
    end in
  (self, t ++ [Close listener]).

Definition stop (self : state) : state :=
  {| tcp_addr := tcp_addr self; tcp_port := tcp_port self;
     sctp_addr := sctp_addr self; sctp_port := sctp_port self;
     running := false; connections := connections self |}.

End SCTPBridge.

(** ** The stand-alone listener (mock_amf.py at the top of the tree)

    The script has no functions: it binds, listens, and loops for ever over
    [accept] and an inner [recv] loop.  A run is observed for as long as
    its script lasts. *)

Module SimpleMock.

Inductive call : Type :=
| SocketCall (ev : event)
| Sleep (seconds : positive).      (* time.sleep(1) *)

(** What the environment does to one connection attempt. *)
Record session : Type := {
  on_accept : accept_outcome;
  on_recvs : list recv_outcome
}.

Inductive status : Type :=
| PeerClosed     (* [if not data: break] *)
| StillOpen.     (* the script ends inside the inner loop *)

(** The inner [while True] loop. *)
Fixpoint receive (conn : socket) (script : list recv_outcome) : io status :=
  match script with
  | [] => ret StillOpen
  | o :: rest =>
      do! data := recv conn 1024 o in
      match data with
      | [] => ret PeerClosed
      | _ :: _ => receive conn rest
      end
  end.

(** The outer [while True] loop: [try: accept, receive] and
    [except Exception: print, sleep(1)]. *)
Fixpoint serve (server : socket) (script : list session) : list call :=
  match script with
  | [] => []
  | s :: rest =>
      let (t, r) :=
        do! ' (conn, _) := accept server (on_accept s) in
        receive conn (on_recvs s) in
      map SocketCall t
      ++ match r with
         | Ok PeerClosed => serve server rest
         | Ok StillOpen => []
         | Raise _ => Sleep 1 :: serve server rest
         end
  end.

(** The script: an exception of [bind] or [listen] is not caught. *)
Definition main (server : handle) (on_bind : outcome) (script : list session)
  : list call :=
  match on_bind with
  | Returns => serve {| fileno := server; gettimeout := None |} script
  | Raises _ => []
  end.

End SimpleMock.

(** ** Python string methods used by fix_open5gs_ports.py *)

Module PyStr.

(** [s.startswith(prefix)] *)
Fixpoint startswith (s prefix : str) : bool :=
  match prefix, s with
  | [], _ => true
  | _ :: _, [] => false
  | p :: prefix, c :: s => (p =? c)%N && startswith s prefix
  end.

(** [sub in s] *)
Fixpoint contains (s sub : str) : bool :=
  startswith s sub
  || match s with
     | [] => false
     | _ :: rest => contains rest sub
     end.

(** The scan of [s.replace(old, new)] for a non-empty [old]: the
    occurrences replaced are found from left to right and do not overlap;
    [skip] counts the characters of the current occurrence still to be
    passed over. *)
Fixpoint replace_from (old new : str) (skip : nat) (s : str) : str :=
  match s with
  | [] => []
  | c :: rest =>
      match skip with
      | S k => replace_from old new k rest
      | O =>
          if startswith s old
          then new ++ replace_from old new (length old - 1) rest
          else c :: replace_from old new 0 rest
      end
  end.

(** [s.replace(old, new)].  An empty [old] matches before every character
    and at the end. *)
Definition replace (s old new : str) : str :=
  match old with
  | [] => new ++ flat_map (fun c => c :: new) s
  | _ :: _ => replace_from old new 0 s
  end.

End PyStr.

(** ** fix_open5gs_ports.py: the port table and the rewriting of URIs

    The YAML documents are read and written by the [yaml] library; what is
    embedded is what the script itself computes on strings. *)

Module FixPorts.

Import PyStr.

Definition port_mapping : list (string * Z) :=
  [ ("amf", 7777); ("smf", 7778); ("pcf", 7779); ("udr", 7780);
    ("udm", 7781); ("ausf", 7782); ("nrf", 7783); ("bsf", 7784);
    ("nssf", 7785); ("scp", 7786) ]%string.

(** [port_mapping[key]]; [None] stands for [KeyError]. *)
Fixpoint getitem (d : list (string * Z)) (key : string) : option Z :=
  match d with
  | [] => None
  | (k, v) :: rest => if String.eqb k key then Some v else getitem rest key
  end.

(** [port_mapping.get(key, default)] *)
Definition get (d : list (string * Z)) (key : string) (default : Z) : Z :=
  match getitem d key with
  | Some v => v
  | None => default
  end.

(** [f':{port}'] *)
Definition colon_port (port : Z) : str :=
  str_of_string (":" +:+ pretty port).

(** The port written into every SBI server entry:
    [port_mapping.get(service_name, 7777)]. *)
Definition server_port (service_name : string) : Z :=
  get port_mapping service_name 7777.

(** The value assigned to [nrf['uri']]:
    [nrf['uri'].replace(':7777', f':{port_mapping["nrf"]}')]. *)
Definition nrf_client_uri (uri : str) : option str :=
  match getitem port_mapping "nrf" with
  | Some p => Some (replace uri (str_of_string ":7777") (colon_port p))
  | None => None
  end.

(** The value [scp['uri']] ends with, after the two assignments
    [.replace(':7777', f':{port_mapping["scp"]}')] and
    [.replace(':7783', f':{port_mapping["scp"]}')]. *)
Definition scp_client_uri (uri : str) : option str :=
  match getitem port_mapping "scp" with
  | Some p =>
      let uri := replace uri (str_of_string ":7777") (colon_port p) in
      Some (replace uri (str_of_string ":7783") (colon_port p))
  | None => None
  end.

(** [f'http://127.0.0.1:{port}'] *)
Definition local_uri (port : Z) : str :=
  str_of_string ("http://127.0.0.1:" +:+ pretty port).

(** The three replacements [main] makes in the dumped text of an
    additional service. *)
Definition additional_service_text (config_str : str) : option str :=
  match getitem port_mapping "nrf", getitem port_mapping "scp" with
  | Some nrf, Some scp =>
      let config_str :=
        replace config_str (str_of_string "http://127.0.0.1:7777")
          (local_uri nrf) in
      let config_str :=
        replace config_str (str_of_string "http://127.0.0.10:7777")
          (local_uri nrf) in
      Some (replace config_str (str_of_string "http://127.0.0.22:7777")
              (local_uri scp))
  | _, _ => None
  end.

End FixPorts.

(** * Vocabulary of the statements *)

Section CodecVocabulary.

Import NGAPMessage.

(** The twelve bytes in front of the cause, given the two length bytes. *)
Definition failure_head (length_byte cause_length_byte : byte) : bytes :=
  [x40; x15; x00; length_byte; x00; x00; x01; x00; x0f; x40;
   cause_length_byte; x00]%byte.

(** [cause.encode('ascii')], the encoding the specification names. *)
Definition ascii_encode (s : str) : result bytes :=
  if isascii s then Ok (map low_byte s) else Raise UnicodeEncodeError.

(** The test that admits a message to [handle_ng_setup_request]:
    [len(data) > 4], then [header and header['procedure_code'] == 21]. *)
Definition passes_gate (data : bytes) : bool :=
  (len data >? 4)
  && match decode_header data with
     | Ok (Some h) => procedure_code h =? NG_SETUP_REQUEST
     | _ => false
     end.

End CodecVocabulary.

Section CallVocabulary.

(** The byte strings handed to [send], in order. *)
Definition sent (t : trace) : list bytes :=
  flat_map (fun ev => match ev with Send _ d => [d] | _ => [] end) t.

(** The sockets on which [close] was called, in order. *)
Definition closed (t : trace) : list handle :=
  flat_map (fun ev => match ev with Close s => [s] | _ => [] end) t.

(** The socket after [conn.settimeout(5.0)]. *)
Definition timed (conn : socket) : socket :=
  {| fileno := fileno conn; gettimeout := Some 5%positive |}.

(** The calls every pass makes before it looks at the data. *)
Definition received (conn : socket) (data : bytes) : trace :=
  [SetTimeout (fileno conn) (Some 5%positive);
   Recv (fileno conn) 4096 (Some 5%positive) (Ok data)].

(** The calls the receive loop makes: on its own socket only, every
    [recv] of 4096 bytes under the 5-second timeout. *)
Definition loop_call (fd : handle) (ev : event) : Prop :=
  match ev with
  | SetTimeout s t => s = fd /\ t = Some 5%positive
  | Recv s n t _ => s = fd /\ n = 4096 /\ t = Some 5%positive
  | Send s _ => s = fd
  | _ => False
  end.

(** The calls of one pass of either accept loop. *)
Definition accept_calls (f : target) (listener : handle) (o : accept_outcome)
  : trace :=
  [SetTimeout listener (Some 1%positive); Accept listener (Some 1%positive)]
  ++ match o with
     | Accepted fd peer => [ThreadStart f fd peer]
     | AcceptRaises _ => []
     end.

(** The events that change the [connections] dict. *)
Definition registry_events (t : trace) : trace :=
  flat_map (fun ev => match ev with
                      | Register _ _ | Unregister _ => [ev]
                      | _ => []
                      end) t.

(** Every initial segment of a list of calls. *)
Fixpoint prefixes (t : trace) : list trace :=
  match t with
  | [] => [[]]
  | ev :: rest => [] :: map (cons ev) (prefixes rest)
  end.

(** The calls of the fallback handler: on its own socket only, every
    [recv] under whatever timeout the socket had when the handler got it. *)
Definition fallback_call (conn : socket) (ev : event) : Prop :=
  match ev with
  | Recv s n t _ => s = fileno conn /\ n = 4096 /\ t = gettimeout conn
  | Send s _ => s = fileno conn
  | _ => False
  end.

(** A [recv] issued on a socket in blocking mode. *)
Definition blocking_recv (ev : event) : bool :=
  match ev with
  | Recv _ _ None _ => true
  | _ => false
  end.

(** The timeouts under which [recv] was called, in order. *)
Definition recv_timeouts (t : trace) : list (option positive) :=
  flat_map (fun ev => match ev with Recv _ _ tm _ => [tm] | _ => [] end) t.

(** The timeouts of the [accept] and [select] waits, in order. *)
Definition wait_timeouts (t : trace) : list (option positive) :=
  flat_map (fun ev => match ev with
                      | Accept _ tm | Select _ _ tm => [tm]
                      | _ => []
                      end) t.

End CallVocabulary.

Section BridgeVocabulary.

Import SCTPBridge.

(** The calls that move one chunk from [src] to [dst], when [select]
    reported [readable] and the environment answers [recv] with [on_recv]
    and [send] with [on_send].  A socket that is not reported readable is
    left alone; one that is reported readable is read, once, and what was
    read is sent on, unless nothing was read.  The boolean tells whether
    the pass goes on after these calls. *)
Inductive forwarded (src dst : socket) (readable : list handle)
    (on_recv : recv_outcome) (on_send : outcome)
  : trace -> bool -> Prop :=
| fw_skip :
    mem src readable = false ->
    forwarded src dst readable on_recv on_send [] true
| fw_eof (avail : bytes) :
    mem src readable = true ->
    on_recv = Pending avail ->
    firstn 4096 avail = [] ->
    forwarded src dst readable on_recv on_send
      [Recv (fileno src) 4096 (gettimeout src) (Ok [])] false
| fw_error (e : exn) :
    mem src readable = true ->
    on_recv = RecvRaises e ->
    forwarded src dst readable on_recv on_send
      [Recv (fileno src) 4096 (gettimeout src) (Raise e)] false
| fw_data (avail data : bytes) :
    mem src readable = true ->
    on_recv = Pending avail ->
    data = firstn 4096 avail ->
    data <> [] -> (length data <= 4096)%nat ->
    forwarded src dst readable on_recv on_send
      [Recv (fileno src) 4096 (gettimeout src) (Ok data);
       Send (fileno dst) data]
      (match on_send with Returns => true | Raises _ => false end).

(** The calls of one pass of the bridge loop: the [select], then the TCP
    side, then, if the pass goes on, the SCTP side. *)
Inductive wake_calls (tcp_conn sctp_sock : socket) (w : wake)
  : trace -> Prop :=
| wc_raises (e : exn) :
    on_select w = SelectRaises e ->
    wake_calls tcp_conn sctp_sock w
      [Select [fileno tcp_conn; fileno sctp_sock]
              [fileno tcp_conn; fileno sctp_sock] (Some 1%positive)]
| wc_stopped (readable exceptional : list handle) (t1 : trace) :
    on_select w = Ready readable exceptional ->
    forwarded tcp_conn sctp_sock readable (on_tcp_recv w) (on_sctp_send w)
      t1 false ->
    wake_calls tcp_conn sctp_sock w
      (Select [fileno tcp_conn; fileno sctp_sock]
              [fileno tcp_conn; fileno sctp_sock] (Some 1%positive)
       :: t1)
| wc_ready (readable exceptional : list handle) (t1 t2 : trace)
    (goes_on : bool) :
    on_select w = Ready readable exceptional ->
    forwarded tcp_conn sctp_sock readable (on_tcp_recv w) (on_sctp_send w)
      t1 true ->
    forwarded sctp_sock tcp_conn readable (on_sctp_recv w) (on_tcp_send w)
      t2 goes_on ->
    wake_calls tcp_conn sctp_sock w
      (Select [fileno tcp_conn; fileno sctp_sock]
              [fileno tcp_conn; fileno sctp_sock] (Some 1%positive)
       :: t1 ++ t2).

(** Whether a list of calls holds a [recv] that returned no bytes. *)
Definition empty_read (t : trace) : bool :=
  existsb (fun ev => match ev with Recv _ _ _ (Ok []) => true | _ => false end) t.

End BridgeVocabulary.

Section RunVocabulary.

(** The threads started, in order. *)
Definition started (t : trace) : list (target * handle * address) :=
  flat_map (fun ev => match ev with
                      | ThreadStart f fd peer => [(f, fd, peer)]
                      | _ => []
                      end) t.

(** The connections an accept script hands out, in order. *)
Definition accepted (script : list accept_outcome) : list (handle * address) :=
  flat_map (fun o => match o with
                     | Accepted fd peer => [(fd, peer)]
                     | AcceptRaises _ => []
                     end) script.

(** The bytes read from socket [fd], in order. *)
Definition received_from (fd : handle) (t : trace) : bytes :=
  flat_map (fun ev => match ev with
                      | Recv s _ _ (Ok data) =>
                          if Nat.eqb s fd then data else []
                      | _ => []
                      end) t.

(** The bytes handed to [send] on socket [fd], in order. *)
Definition sent_to (fd : handle) (t : trace) : bytes :=
  flat_map (fun ev => match ev with
                      | Send s data => if Nat.eqb s fd then data else []
                      | _ => []
                      end) t.

(** Whether an event is a locked statement on the registry key [id]. *)
Definition touches (id : string) (ev : event) : bool :=
  match ev with
  | Register k _ | Unregister k => String.eqb k id
  | _ => false
  end.

(** [t] runs the calls of two threads, each in its own order. *)
Inductive interleaving {A : Type} : list A -> list A -> list A -> Prop :=
| il_nil : interleaving [] [] []
| il_left (x : A) (l1 l2 l : list A) :
    interleaving l1 l2 l -> interleaving (x :: l1) l2 (x :: l)
| il_right (x : A) (l1 l2 l : list A) :
    interleaving l1 l2 l -> interleaving l1 (x :: l2) (x :: l).

(** The calls of the stand-alone listener: [accept] and [recv(1024)] on
    blocking sockets, and [sleep(1)]. *)
Definition listener_call (c : SimpleMock.call) : Prop :=
  match c with
  | SimpleMock.SocketCall (Accept _ t) => t = None
  | SimpleMock.SocketCall (Recv _ n t _) => n = 1024 /\ t = None
  | SimpleMock.Sleep s => s = 1%positive
  | _ => False
  end.

End RunVocabulary.

Section StringVocabulary.

(** Whether two strings differ at a position both of them have. *)
Fixpoint clash (a b : str) : bool :=
  match a, b with
  | x :: a, y :: b => negb (x =? y)%N || clash a b
  | _, _ => false
  end.

(** Whether a string is free of the character [c]. *)
Definition lacks (c : N) (s : str) : bool :=
  forallb (fun x => negb (x =? c)%N) s.

End StringVocabulary.

(** * Properties *)

(** ** The model on concrete inputs *)

Example decode_header_example :
  NGAPMessage.decode_header [x15; x00; x01; x02; xff]%byte
  = Ok (Some {| NGAPMessage.procedure_code := 21;
                NGAPMessage.criticality := 0;
                NGAPMessage.header_length := 258 |}).
Proof. reflexivity. Qed.

Example decode_header_short_example :
  NGAPMessage.decode_header [x15; x00; x01]%byte = Ok None.
Proof. reflexivity. Qed.

Example utf8_encode_example :
  utf8_encode [0x58; 0xe9; 0x20ac; 0x1f600]%N
  = Ok [x58; xc3; xa9; xe2; x82; xac; xf0; x9f; x98; x80]%byte.
Proof. reflexivity. Qed.

Example utf8_encode_surrogate_example :
  utf8_encode [0xd800]%N = Raise UnicodeEncodeError.
Proof. reflexivity. Qed.

Example create_ng_setup_failure_example :
  NGAPMessage.create_ng_setup_failure (str_of_string "X")
  = Ok [x40; x15; x00; x09; x00; x00; x01; x00; x0f; x40; x02; x00; x58]%byte.
Proof. reflexivity. Qed.

Example conn_id_example :
  MockAMF.conn_id ("10.0.0.1"%string, 5000) = "10.0.0.1:5000"%string.
Proof. vm_compute. reflexivity. Qed.

Example handle_ngap_connection_example :
  MockAMF.handle_ngap_connection
    {| fileno := 7%nat; gettimeout := None |} ("10.0.0.1"%string, 5000)
    [ {| MockAMF.on_settimeout := Returns;
         MockAMF.on_recv := Pending [x15; x00]%byte;
         MockAMF.on_send := Returns;
         MockAMF.on_keepalive := Returns |};
      {| MockAMF.on_settimeout := Returns;
         MockAMF.on_recv := RecvRaises SocketTimeout;
         MockAMF.on_send := Returns;
         MockAMF.on_keepalive := Returns |};
      {| MockAMF.on_settimeout := Returns;
         MockAMF.on_recv := Pending [];
         MockAMF.on_send := Returns;
         MockAMF.on_keepalive := Returns |} ]
  = [ Register "10.0.0.1:5000" 7%nat;
      SetTimeout 7%nat (Some 5%positive);
      Recv 7%nat 4096 (Some 5%positive) (Ok [x15; x00]%byte);
      SetTimeout 7%nat (Some 5%positive);
      Recv 7%nat 4096 (Some 5%positive) (Raise SocketTimeout);
      SetTimeout 7%nat (Some 5%positive);
      Recv 7%nat 4096 (Some 5%positive) (Ok []);
      Unregister "10.0.0.1:5000";
      Close 7%nat ].
Proof. vm_compute. reflexivity. Qed.

Example stop_example :
  MockAMF.stop
    {| MockAMF.addr := "127.0.0.4"; MockAMF.port := 38412;
       MockAMF.running := true;
       MockAMF.connections := {[ "10.0.0.1:5000"%string := 7%nat ]} |}
    (fun _ => Raises OSError)
  = ({| MockAMF.addr := "127.0.0.4"; MockAMF.port := 38412;
        MockAMF.running := false; MockAMF.connections := ∅ |},
     ([Close 7%nat], Ok tt)).
Proof. vm_compute. reflexivity. Qed.

(** ** Bytes and integers *)

Section ByteFacts.

Lemma int_of_byte_range (b : byte) : 0 <= int_of_byte b <= 255.
Proof.
  unfold int_of_byte. pose proof (Byte.to_N_bounded b). lia.
Qed.

Lemma byte_of_int_Ok (z : Z) :
  0 <= z <= 255 -> exists b, byte_of_int z = Ok b /\ int_of_byte b = z.
Proof.
  intros Hz. unfold byte_of_int.
  destruct (Z.ltb_spec z 0) as [?|_]; [lia|].
  destruct (Byte.of_N (Z.to_N z)) as [b|] eqn:E.
  - exists b. split; [reflexivity|].
    unfold int_of_byte. apply Byte.to_of_N in E. lia.
  - apply Byte.of_N_None_iff in E. lia.
Qed.

Lemma byte_of_int_Raise (z : Z) :
  z < 0 \/ 255 < z -> byte_of_int z = Raise ValueError.
Proof.
  intros Hz. unfold byte_of_int.
  destruct (Z.ltb_spec z 0) as [?|Hpos]; [reflexivity|].
  destruct (Byte.of_N (Z.to_N z)) as [b|] eqn:E; [|reflexivity].
  apply Byte.to_of_N in E. pose proof (Byte.to_N_bounded b). lia.
Qed.

(** Two bytes, most significant first, read as a number. *)
Lemma be16_value (hi lo : byte) :
  Z.lor (Z.shiftl (int_of_byte hi) 8) (int_of_byte lo)
  = 256 * int_of_byte hi + int_of_byte lo.
Proof.
  pose proof (int_of_byte_range hi) as Hh.
  pose proof (int_of_byte_range lo) as Hl.
  set (h := int_of_byte hi) in *. set (l := int_of_byte lo) in *.
  assert (Hdis : Z.land (Z.shiftl h 8) l = 0).
  { apply Z.bits_inj'. intros n Hn.
    rewrite Z.land_spec, Z.bits_0.
    destruct (Z.ltb_spec n 8) as [Hs|Hs].
    - rewrite Z.shiftl_spec_low by lia. reflexivity.
    - assert (Z.testbit l n = false) as ->.
      { destruct (Z.eq_dec l 0) as [->|Hnz]; [apply Z.bits_0|].
        apply Z.bits_above_log2; [lia|].
        assert (Z.log2 l < 8); [|lia].
        apply Z.log2_lt_pow2; lia. }
      apply andb_false_r. }
  rewrite <- Z.lxor_lor by exact Hdis.
  rewrite <- Z.add_nocarry_lxor by exact Hdis.
  rewrite Z.shiftl_mul_pow2 by lia. lia.
Qed.

Lemma len_nonneg {A} (l : list A) : 0 <= len l.
Proof. unfold len. lia. Qed.

Lemma len_cons {A} (x : A) (l : list A) : len (x :: l) = len l + 1.
Proof. unfold len. cbn [length]. lia. Qed.

Lemma len_app {A} (l1 l2 : list A) : len (l1 ++ l2) = len l1 + len l2.
Proof. unfold len. rewrite length_app. lia. Qed.

End ByteFacts.

(** ** The codec *)

Section Codec.

Import NGAPMessage.

Lemma decode_header_short (data : bytes) :
  len data < 4 -> decode_header data = Ok None.
Proof.
  intros H. unfold decode_header.
  destruct (Z.ltb_spec (len data) 4); [reflexivity|lia].
Qed.

Lemma decode_header_cons (b0 b1 b2 b3 : byte) (payload : bytes) :
  decode_header (b0 :: b1 :: b2 :: b3 :: payload)
  = Ok (Some {| procedure_code := int_of_byte b0;
                criticality := int_of_byte b1;
                header_length := 256 * int_of_byte b2 + int_of_byte b3 |}).
Proof.
  unfold decode_header.
  destruct (Z.ltb_spec (len (b0 :: b1 :: b2 :: b3 :: payload)) 4) as [H|_].
  - rewrite !len_cons in H. pose proof (len_nonneg payload). lia.
  - cbn. rewrite be16_value. reflexivity.
Qed.

(** C2.  [decode_header] never raises; it returns [None] exactly on the
    inputs shorter than 4 bytes, and on any longer input a header made of
    byte 0, byte 1 and the big-endian 16-bit value of bytes 2-3.  The
    payload after byte 3 plays no part: the declared length is not
    compared with it, so a header declaring 65535 bytes in front of an
    empty payload decodes. *)
Theorem decode_header_spec :
  (forall data : bytes,
     decode_header data =
       if len data <? 4 then Ok None
       else Ok (Some {| procedure_code := int_of_byte (nth 0 data x00);
                        criticality := int_of_byte (nth 1 data x00);
                        header_length := 256 * int_of_byte (nth 2 data x00)
                                         + int_of_byte (nth 3 data x00) |}))
  /\ (forall (b0 b1 b2 b3 : byte) (payload payload' : bytes),
        decode_header (b0 :: b1 :: b2 :: b3 :: payload)
        = decode_header (b0 :: b1 :: b2 :: b3 :: payload'))
  /\ decode_header [x15; x00; xff; xff]%byte
     = Ok (Some {| procedure_code := 21; criticality := 0;
                   header_length := 65535 |}).
Proof.
  split; [|split].
  - intros data. destruct (Z.ltb_spec (len data) 4) as [H|H].
    + apply decode_header_short, H.
    + destruct data as [|b0 [|b1 [|b2 [|b3 payload]]]];
        try (cbv in H; exfalso; apply H; reflexivity).
      apply decode_header_cons.
  - intros. rewrite !decode_header_cons. reflexivity.
  - reflexivity.
Qed.

(** C10.  The success template is one fixed sequence of 40 bytes.  Its
    header declares a length of 46 while 36 bytes follow the length
    field. *)
Theorem create_ng_setup_response_length :
  len create_ng_setup_response = 40
  /\ slice create_ng_setup_response 2 4 = [x00; x2e]%byte
  /\ len (skipn 4 create_ng_setup_response) = 36
  /\ exists h, decode_header create_ng_setup_response = Ok (Some h)
               /\ header_length h = 46
               /\ header_length h <> len (skipn 4 create_ng_setup_response).
Proof.
  split; [reflexivity|]. split; [reflexivity|]. split; [reflexivity|].
  eexists. split; [reflexivity|]. split; [reflexivity|].
  vm_compute. discriminate.
Qed.

(** *** The failure template *)

Lemma utf8_encode_isascii (s : str) :
  isascii s = true -> utf8_encode s = Ok (map low_byte s).
Proof.
  induction s as [|c s IH]; cbn [isascii forallb]; [reflexivity|].
  intros [Hc Hs]%andb_true_iff. cbn [utf8_encode map].
  unfold utf8_encode_char. rewrite Hc. cbn [bind].
  rewrite (IH Hs). reflexivity.
Qed.

Lemma create_ng_setup_failure_fits (cause : str) (cause_bytes : bytes) :
  utf8_encode cause = Ok cause_bytes ->
  len cause_bytes <= 247 ->
  exists b3 b10,
    int_of_byte b3 = len cause_bytes + 8
    /\ int_of_byte b10 = len cause_bytes + 1
    /\ create_ng_setup_failure cause
       = Ok (failure_head b3 b10 ++ cause_bytes).
Proof.
  intros Henc Hlen. pose proof (len_nonneg cause_bytes) as Hpos.
  destruct (byte_of_int_Ok (len cause_bytes + 8)) as (b3 & E3 & V3); [lia|].
  destruct (byte_of_int_Ok (len cause_bytes + 1)) as (b10 & E10 & V10); [lia|].
  exists b3, b10. repeat split; [exact V3|exact V10|].
  unfold create_ng_setup_failure. rewrite Henc. cbn [bind bytearray].
  rewrite E3, E10. reflexivity.
Qed.

Lemma create_ng_setup_failure_overflows (cause : str) (cause_bytes : bytes) :
  utf8_encode cause = Ok cause_bytes ->
  247 < len cause_bytes ->
  create_ng_setup_failure cause = Raise ValueError.
Proof.
  intros Henc Hlen.
  unfold create_ng_setup_failure. rewrite Henc. cbn [bind bytearray].
  rewrite (byte_of_int_Raise (len cause_bytes + 8)) by lia. reflexivity.
Qed.

(** C3, as the code has it.  For every cause whose UTF-8 encoding is at
    most 247 bytes, [create_ng_setup_failure] returns a byte sequence;
    the message-length field holds the encoded length plus 8 and the
    cause-length field the encoded length plus 1, both within 0..255. *)
Theorem create_ng_setup_failure_returns
    (cause : str) (cause_bytes : bytes) :
  utf8_encode cause = Ok cause_bytes ->
  len cause_bytes <= 247 ->
  exists out,
    create_ng_setup_failure cause = Ok out
    /\ getitem out 3 = Ok (len cause_bytes + 8)
    /\ getitem out 10 = Ok (len cause_bytes + 1)
    /\ 0 <= len cause_bytes + 1 <= 255
    /\ 0 <= len cause_bytes + 8 <= 255.
Proof.
  intros Henc Hlen. pose proof (len_nonneg cause_bytes).
  destruct (create_ng_setup_failure_fits _ _ Henc Hlen)
    as (b3 & b10 & V3 & V10 & E).
  exists (failure_head b3 b10 ++ cause_bytes).
  split; [exact E|]. cbn. rewrite V3, V10.
  repeat split; lia.
Qed.

Lemma create_ng_setup_failure_returns_witness :
  exists out,
    create_ng_setup_failure default_cause = Ok out
    /\ getitem out 3 = Ok (12 + 8)
    /\ getitem out 10 = Ok (12 + 1)
    /\ 0 <= 12 + 1 <= 255
    /\ 0 <= 12 + 8 <= 255.
Proof.
  apply (create_ng_setup_failure_returns default_cause
           (map low_byte default_cause)).
  - reflexivity.
  - vm_compute. discriminate.
Defined.

(** C3 fails as stated: a cause of 248 letters "a" is encoded in 248
    bytes, within the stated bound of 254, and the message-length item
    248 + 8 = 256 makes [bytearray] raise. *)
Lemma create_ng_setup_failure_raises_at_248 :
  utf8_encode (repeat 97%N 248) = Ok (repeat "a"%byte 248)
  /\ len (repeat "a"%byte 248) <= 254
  /\ create_ng_setup_failure (repeat 97%N 248) = Raise ValueError.
Proof.
  split; [vm_compute; reflexivity|].
  split; [vm_compute; discriminate|].
  vm_compute; reflexivity.
Qed.

(** C4, as the code has it.  For every cause whose UTF-8 encoding is at
    most 247 bytes, the sequence returned is a 12-byte head followed by
    the encoded cause, and the cause-length byte of the head is the
    number of encoded bytes plus 1.  For an ASCII cause that number is
    [len(cause)] and the trailing bytes are its ASCII encoding. *)
Theorem create_ng_setup_failure_layout
    (cause : str) (cause_bytes : bytes) :
  utf8_encode cause = Ok cause_bytes ->
  len cause_bytes <= 247 ->
  exists head,
    create_ng_setup_failure cause = Ok (head ++ cause_bytes)
    /\ len head = 12
    /\ getitem (head ++ cause_bytes) 10 = Ok (len cause_bytes + 1)
    /\ skipn 12 (head ++ cause_bytes) = cause_bytes
    /\ (isascii cause = true ->
          len cause_bytes = len cause /\ ascii_encode cause = Ok cause_bytes).
Proof.
  intros Henc Hlen.
  destruct (create_ng_setup_failure_fits _ _ Henc Hlen)
    as (b3 & b10 & V3 & V10 & E).
  exists (failure_head b3 b10).
  split; [exact E|]. split; [reflexivity|].
  split; [cbn; rewrite V10; reflexivity|].
  split; [reflexivity|].
  intros Hascii. unfold ascii_encode. rewrite Hascii.
  rewrite (utf8_encode_isascii _ Hascii) in Henc.
  injection Henc as <-. split; [|reflexivity].
  unfold len. rewrite length_map. reflexivity.
Qed.

Lemma create_ng_setup_failure_layout_witness :
  exists head,
    create_ng_setup_failure (str_of_string "X") = Ok (head ++ ["X"%byte])
    /\ len head = 12
    /\ getitem (head ++ ["X"%byte]) 10 = Ok (len ["X"%byte] + 1)
    /\ skipn 12 (head ++ ["X"%byte]) = ["X"%byte]
    /\ (isascii (str_of_string "X") = true ->
          len ["X"%byte] = len (str_of_string "X")
          /\ ascii_encode (str_of_string "X") = Ok ["X"%byte]).
Proof.
  apply (create_ng_setup_failure_layout (str_of_string "X") ["X"%byte]).
  - reflexivity.
  - vm_compute. discriminate.
Defined.

(** C4 fails as stated on two kinds of cause.  The one-character cause
    "é" (U+00E9) is encoded in two bytes: the cause-length byte is 3, not
    [len(cause) + 1 = 2], and the cause has no ASCII encoding.  A cause of
    248 letters "a" meets the stated bound of 254 bytes and no byte
    sequence is returned. *)
Lemma create_ng_setup_failure_layout_fails :
  (len [0xe9%N] = 1
   /\ exists out, create_ng_setup_failure [0xe9%N] = Ok out
                  /\ getitem out 10 = Ok 3
                  /\ skipn 12 out = [xc3; xa9]%byte
                  /\ ascii_encode [0xe9%N] = Raise UnicodeEncodeError)
  /\ (len (repeat 97%N 248) <= 254
      /\ isascii (repeat 97%N 248) = true
      /\ create_ng_setup_failure (repeat 97%N 248) = Raise ValueError).
Proof.
  split.
  - split; [reflexivity|]. eexists. split; [vm_compute; reflexivity|].
    repeat split; reflexivity.
  - split; [vm_compute; discriminate|]. split; vm_compute; reflexivity.
Qed.

End Codec.

(** ** The Mock AMF handler *)

Section MockHandler.

Import NGAPMessage MockAMF.

Lemma passes_gate_iff (data : bytes) :
  passes_gate data = true
  <-> 4 < len data
      /\ exists h, decode_header data = Ok (Some h) /\ procedure_code h = 21.
Proof.
  unfold passes_gate. rewrite andb_true_iff, Z.gtb_lt. split.
  - intros [Hlen Hh]. split; [lia|].
    destruct (decode_header data) as [[h|]|]; try discriminate.
    exists h. split; [reflexivity|]. apply Z.eqb_eq, Hh.
  - intros [Hlen (h & -> & Hpc)]. split; [lia|]. apply Z.eqb_eq, Hpc.
Qed.

Lemma passes_gate_first_byte (data : bytes) :
  passes_gate data = true <-> 4 < len data /\ getitem data 0 = Ok 21.
Proof.
  rewrite passes_gate_iff. split.
  - intros [Hlen (h & Hd & Hpc)]. split; [exact Hlen|].
    destruct data as [|b0 [|b1 [|b2 [|b3 payload]]]];
      try (cbv in Hlen; discriminate).
    rewrite decode_header_cons in Hd. injection Hd as <-.
    cbn in Hpc. cbn. rewrite Hpc. reflexivity.
  - intros [Hlen H0]. split; [exact Hlen|].
    destruct data as [|b0 [|b1 [|b2 [|b3 payload]]]];
      try (cbv in Hlen; discriminate).
    rewrite decode_header_cons. eexists. split; [reflexivity|].
    cbn in H0. cbn. congruence.
Qed.

Lemma recv_all (conn : socket) (data : bytes) :
  (length data <= 4096)%nat ->
  recv conn 4096 (Pending data)
  = ([Recv (fileno conn) 4096 (gettimeout conn) (Ok data)], Ok data).
Proof.
  intros H. unfold recv.
  rewrite firstn_all2 by (change (Z.to_nat 4096) with 4096%nat; lia).
  reflexivity.
Qed.

(** A non-empty first message that does not pass the gate: the pass makes
    no further call and goes back to the loop head with setup incomplete. *)
Lemma loop_body_gate_closed (conn : socket) (env : iteration) (data : bytes) :
  on_settimeout env = Returns ->
  on_recv env = Pending data ->
  data <> [] -> (length data <= 4096)%nat ->
  passes_gate data = false ->
  loop_body conn false env = (received conn data, Ok (timed conn, Next false)).
Proof.
  intros Hst Hrecv Hne Hlen Hgate.
  unfold loop_body, on_data, settimeout. rewrite Hst, Hrecv.
  cbn [call iobind ret app fileno gettimeout].
  rewrite recv_all by exact Hlen. cbn [iobind fileno gettimeout].
  destruct data as [|b data']; [congruence|].
  unfold passes_gate in Hgate. cbn [negb andb].
  destruct (Z.gtb_spec (len (b :: data')) 4) as [Hl|Hl];
    cbn [andb] in *; [|reflexivity].
  destruct data' as [|b1 [|b2 [|b3 payload]]]; try (cbv in Hl; discriminate).
  rewrite decode_header_cons in *. cbn in Hgate |- *.
  rewrite Hgate. reflexivity.
Qed.

Lemma looks_like_ng_setup_request_total (data : bytes) :
  exists b, looks_like_ng_setup_request data = Ok b
            /\ (b = true <-> 4 < len data /\ getitem data 0 = Ok 0
                                          /\ getitem data 1 = Ok 21).
Proof.
  unfold looks_like_ng_setup_request.
  destruct (Z.gtb_spec (len data) 4) as [Hl|Hl].
  - destruct data as [|b0 [|b1 rest]]; try (cbv in Hl; discriminate).
    cbn [getitem nth_error bind].
    destruct (Z.eqb_spec (int_of_byte b0) 0) as [E0|E0].
    + exists (int_of_byte b1 =? 21). split; [reflexivity|].
      rewrite Z.eqb_eq, E0. split.
      * intros ->. auto.
      * intros (_ & _ & [= ->]). reflexivity.
    + exists false. split; [reflexivity|]. split; [discriminate|].
      intros (_ & [= H0] & _). contradiction.
  - exists false. split; [reflexivity|]. split; [discriminate|]. lia.
Qed.

Lemma default_cause_encodes :
  create_ng_setup_failure default_cause
  = Ok (failure_head x14 x0d ++ map low_byte default_cause).
Proof. reflexivity. Qed.

(** [handle_ng_setup_request] always attempts exactly one [send]: the
    success template when the message looks like a setup request, the
    failure template with the default cause otherwise. *)
Lemma handle_ng_setup_request_replies
    (conn : socket) (data : bytes) (o : outcome) :
  exists reply done,
    handle_ng_setup_request conn data o
    = ([Send (fileno conn) reply],
       match o with Returns => Ok done | Raises e => Raise e end)
    /\ looks_like_ng_setup_request data = Ok done
    /\ ((done = true /\ reply = create_ng_setup_response)
        \/ (done = false
            /\ create_ng_setup_failure default_cause = Ok reply)).
Proof.
  destruct (looks_like_ng_setup_request_total data) as (b & Hb & _).
  unfold handle_ng_setup_request. rewrite Hb. cbn [lift iobind].
  destruct b.
  - exists create_ng_setup_response, true.
    split; [destruct o; reflexivity|]. split; [reflexivity|]. left. auto.
  - rewrite default_cause_encodes. cbn [lift iobind].
    eexists _, false.
    split; [destruct o; reflexivity|]. split; [reflexivity|]. right. auto.
Qed.

(** A first message that passes the gate is handed to
    [handle_ng_setup_request], whose verdict becomes [ng_setup_complete]. *)
Lemma loop_body_gate_open (conn : socket) (env : iteration) (data : bytes) :
  on_settimeout env = Returns ->
  on_recv env = Pending data ->
  (length data <= 4096)%nat ->
  passes_gate data = true ->
  loop_body conn false env
  = match handle_ng_setup_request (timed conn) data (on_send env) with
    | (t, Ok done) => (received conn data ++ t, Ok (timed conn, Next done))
    | (t, Raise SocketTimeout) =>
        (received conn data ++ t, Ok (timed conn, Next false))
    | (t, Raise _) => (received conn data ++ t, Ok (timed conn, Break))
    end.
Proof.
  intros Hst Hrecv Hlen Hgate.
  pose proof (proj1 (passes_gate_iff data) Hgate) as [Hl _].
  unfold passes_gate in Hgate. apply andb_true_iff in Hgate as [Hg1 Hg2].
  unfold loop_body, on_data, settimeout. rewrite Hst, Hrecv.
  cbn [call iobind ret app fileno gettimeout].
  rewrite recv_all by exact Hlen. cbn [iobind fileno gettimeout].
  destruct data as [|b0 [|b1 [|b2 [|b3 payload]]]];
    try (cbv in Hl; discriminate).
  cbn [negb andb]. rewrite Hg1. cbn [andb].
  rewrite decode_header_cons in *. cbn [lift iobind app].
  rewrite Hg2. fold (timed conn).
  destruct (handle_ng_setup_request (timed conn) _ (on_send env))
    as [t [done|e]].
  - cbn. rewrite ?app_nil_r. reflexivity.
  - destruct e; cbn; rewrite ?app_nil_r; reflexivity.
Qed.

(** The two tests contradict each other: the gate wants byte 0 to be 21,
    [handle_ng_setup_request] wants it to be 0.  No message that passes the
    gate looks like a setup request, so the handler thread never sends the
    success template. *)
Lemma gate_excludes_setup_request (data : bytes) :
  passes_gate data = true -> looks_like_ng_setup_request data = Ok false.
Proof.
  intros [Hl H0]%passes_gate_first_byte.
  destruct (looks_like_ng_setup_request_total data) as (b & Hb & Hiff).
  destruct b; [|exact Hb].
  destruct (proj1 Hiff eq_refl) as (_ & H0' & _). congruence.
Qed.

(** C1, as the code has it.  The first inbound message is handed to
    [handle_ng_setup_request] if and only if it is longer than 4 bytes,
    [decode_header] succeeded on it and the decoded procedure code is 21.
    The handler then sends exactly one reply: the success template, with
    setup complete, or the failure template with the non-empty cause
    "Unknown PLMN", with setup incomplete.  Any other non-empty first
    message gets no reply and leaves setup incomplete. *)
Theorem first_message_gate (conn : socket) (env : iteration) (data : bytes) :
  on_settimeout env = Returns ->
  on_recv env = Pending data ->
  on_send env = Returns ->
  data <> [] -> (length data <= 4096)%nat ->
  (passes_gate data = true
   <-> 4 < len data
       /\ exists h, decode_header data = Ok (Some h) /\ procedure_code h = 21)
  /\ if passes_gate data then
       exists reply done,
         handle_ng_setup_request (timed conn) data Returns
         = ([Send (fileno conn) reply], Ok done)
         /\ loop_body conn false env
            = (received conn data ++ [Send (fileno conn) reply],
               Ok (timed conn, Next done))
         /\ ((done = true /\ reply = create_ng_setup_response)
             \/ (done = false
                 /\ create_ng_setup_failure default_cause = Ok reply
                 /\ len default_cause = 12))
     else
       loop_body conn false env = (received conn data, Ok (timed conn, Next false))
       /\ sent (received conn data) = [].
Proof.
  intros Hst Hrecv Hsend Hne Hlen. split; [apply passes_gate_iff|].
  destruct (passes_gate data) eqn:Hgate.
  - destruct (handle_ng_setup_request_replies (timed conn) data Returns)
      as (reply & done & Hh & _ & Hcases).
    exists reply, done. split; [exact Hh|]. split.
    + rewrite (loop_body_gate_open conn env data Hst Hrecv Hlen Hgate).
      rewrite Hsend, Hh. reflexivity.
    + destruct Hcases as [?|[? ?]]; [left; assumption|right; auto].
  - split; [|reflexivity].
    apply loop_body_gate_closed; assumption.
Qed.

Lemma first_message_gate_witness :
  let conn := {| fileno := 7%nat; gettimeout := None |} in
  let data := [x15; x00; x00; x01; x00]%byte in
  let env := {| on_settimeout := Returns; on_recv := Pending data;
                on_send := Returns; on_keepalive := Returns |} in
  (passes_gate data = true
   <-> 4 < len data
       /\ exists h, decode_header data = Ok (Some h) /\ procedure_code h = 21)
  /\ if passes_gate data then
       exists reply done,
         handle_ng_setup_request (timed conn) data Returns
         = ([Send (fileno conn) reply], Ok done)
         /\ loop_body conn false env
            = (received conn data ++ [Send (fileno conn) reply],
               Ok (timed conn, Next done))
         /\ ((done = true /\ reply = create_ng_setup_response)
             \/ (done = false
                 /\ create_ng_setup_failure default_cause = Ok reply
                 /\ len default_cause = 12))
     else
       loop_body conn false env = (received conn data, Ok (timed conn, Next false))
       /\ sent (received conn data) = [].
Proof.
  intros conn data env.
  apply (first_message_gate conn env data).
  - reflexivity.
  - reflexivity.
  - reflexivity.
  - discriminate.
  - cbn. lia.
Defined.

(** C1 fails as stated.  The 5-byte message 15 00 00 01 00 decodes to
    procedure code 21, and the reply sent is the failure template, not the
    success template.  The message 16 00 00 01 00 decodes to procedure code
    22, and nothing is sent in reply.  The 4-byte message 15 00 00 00
    decodes to procedure code 21 and is not handed to the setup handler:
    nothing is sent in reply. *)
Lemma first_message_reply_differs :
  let conn := {| fileno := 7%nat; gettimeout := None |} in
  let first data := {| on_settimeout := Returns; on_recv := Pending data;
                       on_send := Returns; on_keepalive := Returns |} in
  (decode_header [x15; x00; x00; x01; x00]%byte
   = Ok (Some {| procedure_code := 21; criticality := 0; header_length := 1 |})
   /\ sent (fst (loop_body conn false (first [x15; x00; x00; x01; x00]%byte)))
      <> [create_ng_setup_response]
   /\ Ok (sent (fst (loop_body conn false
                       (first [x15; x00; x00; x01; x00]%byte))))
      = (let! failure := create_ng_setup_failure default_cause in Ok [failure]))
  /\ (decode_header [x16; x00; x00; x01; x00]%byte
      = Ok (Some {| procedure_code := 22; criticality := 0;
                    header_length := 1 |})
      /\ sent (fst (loop_body conn false (first [x16; x00; x00; x01; x00]%byte)))
         = [])
  /\ (decode_header [x15; x00; x00; x00]%byte
      = Ok (Some {| procedure_code := 21; criticality := 0;
                    header_length := 0 |})
      /\ sent (fst (loop_body conn false (first [x15; x00; x00; x00]%byte)))
         = []).
Proof.
  cbv zeta.
  split; [split; [reflexivity|split]|split; split]; try reflexivity.
  vm_compute. discriminate.
Qed.

(** C8, as the code has it.  A non-empty first message of at most 4 bytes,
    or one whose first byte is not the procedure code 21, is answered by no
    call at all: nothing is sent, the socket is not closed, setup stays
    incomplete and the receive loop goes on with its next pass. *)
Theorem malformed_message_ignored
    (conn : socket) (env : iteration) (data : bytes) (rest : list iteration) :
  on_settimeout env = Returns ->
  on_recv env = Pending data ->
  data <> [] -> (length data <= 4096)%nat ->
  len data <= 4 \/ getitem data 0 <> Ok 21 ->
  loop_body conn false env = (received conn data, Ok (timed conn, Next false))
  /\ sent (received conn data) = []
  /\ closed (received conn data) = []
  /\ receive_loop conn false (env :: rest)
     = (received conn data ++ fst (receive_loop (timed conn) false rest),
        snd (receive_loop (timed conn) false rest)).
Proof.
  intros Hst Hrecv Hne Hlen Hbad.
  assert (Hgate : passes_gate data = false).
  { destruct (passes_gate data) eqn:E; [|reflexivity].
    apply passes_gate_first_byte in E as [? ?]. destruct Hbad; [lia|contradiction]. }
  pose proof (loop_body_gate_closed conn env data Hst Hrecv Hne Hlen Hgate) as Hb.
  split; [exact Hb|]. split; [reflexivity|]. split; [reflexivity|].
  cbn [receive_loop]. rewrite Hb. cbn [iobind].
  destruct (receive_loop (timed conn) false rest) as [t r]. reflexivity.
Qed.

Lemma malformed_message_ignored_witness :
  let conn := {| fileno := 7%nat; gettimeout := None |} in
  let data := [x01; x02]%byte in
  let env := {| on_settimeout := Returns; on_recv := Pending data;
                on_send := Returns; on_keepalive := Returns |} in
  loop_body conn false env = (received conn data, Ok (timed conn, Next false))
  /\ sent (received conn data) = []
  /\ closed (received conn data) = []
  /\ receive_loop conn false [env]
     = (received conn data ++ fst (receive_loop (timed conn) false []),
        snd (receive_loop (timed conn) false [])).
Proof.
  intros conn data env.
  apply (malformed_message_ignored conn env data []).
  - reflexivity.
  - reflexivity.
  - discriminate.
  - cbn. lia.
  - left. vm_compute. discriminate.
Defined.

(** C8 fails as stated: after the 2-byte message 01 02, and after the
    6-byte message 2a 00 00 02 00 00 with procedure code 42, the handler
    sends nothing, so no failure reply reaches the peer.  A read of zero
    bytes is the peer's close: nothing is sent and the loop is left. *)
Lemma malformed_message_gets_no_reply :
  let conn := {| fileno := 7%nat; gettimeout := None |} in
  let first data := {| on_settimeout := Returns; on_recv := Pending data;
                       on_send := Returns; on_keepalive := Returns |} in
  sent (fst (loop_body conn false (first [x01; x02]%byte))) = []
  /\ sent (fst (loop_body conn false
                  (first [x2a; x00; x00; x02; x00; x00]%byte))) = []
  /\ loop_body conn false (first [])
     = (received conn [], Ok (timed conn, Break)).
Proof. repeat split; reflexivity. Qed.

End MockHandler.

(** ** Calls made by composite computations *)

Section Calls.

Context {A B : Type} (P : event -> Prop).

Lemma Forall_iobind (m : io A) (k : A -> io B) :
  Forall P (fst m) ->
  (forall a, snd m = Ok a -> Forall P (fst (k a))) ->
  Forall P (fst (iobind m k)).
Proof.
  destruct m as [t [a|e]]; cbn; intros Ht Hk; [|exact Ht].
  specialize (Hk a eq_refl). destruct (k a) as [t2 r]. cbn in *.
  apply Forall_app; auto.
Qed.

Lemma Forall_try_except (m : io A) (h : exn -> io A) :
  Forall P (fst m) ->
  (forall e, snd m = Raise e -> Forall P (fst (h e))) ->
  Forall P (fst (try_except m h)).
Proof.
  destruct m as [t [a|e]]; cbn; intros Ht Hh; [exact Ht|].
  specialize (Hh e eq_refl). destruct (h e) as [t2 r]. cbn in *.
  apply Forall_app; auto.
Qed.

End Calls.

Section MockLoop.

Import NGAPMessage MockAMF.

Lemma handle_ng_setup_request_calls (conn : socket) (data : bytes) (o : outcome) :
  Forall (loop_call (fileno conn)) (fst (handle_ng_setup_request conn data o)).
Proof.
  destruct (handle_ng_setup_request_replies conn data o)
    as (reply & done & -> & _).
  repeat constructor.
Qed.

Lemma on_data_calls (conn : socket) (c : bool) (env : iteration) :
  gettimeout conn = Some 5%positive ->
  Forall (loop_call (fileno conn)) (fst (on_data conn c env)).
Proof.
  intros Ht. unfold on_data. apply Forall_iobind.
  - unfold recv. rewrite Ht. repeat constructor.
  - intros [|b data] _; [constructor|].
    destruct (negb c && (len (b :: data) >? 4)); [|constructor].
    apply Forall_iobind; [constructor|].
    intros [h|] _; [|constructor].
    destruct (procedure_code h =? NG_SETUP_REQUEST); [|constructor].
    apply Forall_iobind; [apply handle_ng_setup_request_calls|].
    intros; constructor.
Qed.

Lemma loop_body_calls (conn : socket) (c : bool) (env : iteration) :
  Forall (loop_call (fileno conn)) (fst (loop_body conn c env)).
Proof.
  unfold loop_body. apply Forall_iobind.
  - unfold settimeout. apply Forall_iobind; [|intros; constructor].
    repeat constructor.
  - intros conn' Hc.
    assert (conn' = timed conn) as ->.
    { unfold settimeout in Hc. destruct (on_settimeout env); cbn in Hc;
        [injection Hc as <-; reflexivity|discriminate]. }
    apply Forall_iobind; [|intros; constructor].
    apply Forall_try_except.
    + apply (on_data_calls (timed conn)). reflexivity.
    + intros [] _; try constructor.
      destruct c; [|constructor].
      apply Forall_iobind; [repeat constructor|intros; constructor].
Qed.

Lemma loop_body_socket
    (conn : socket) (c : bool) (env : iteration) (conn' : socket) (f : flow) :
  snd (loop_body conn c env) = Ok (conn', f) -> fileno conn' = fileno conn.
Proof.
  unfold loop_body, settimeout.
  destruct (on_settimeout env); cbn; [|discriminate].
  destruct (try_except _ _) as [t [f'|e]]; cbn; [|discriminate].
  intros [= <- _]. reflexivity.
Qed.

Lemma receive_loop_calls (script : list iteration) :
  forall (conn : socket) (c : bool),
    Forall (loop_call (fileno conn)) (fst (receive_loop conn c script)).
Proof.
  induction script as [|env rest IH]; intros conn c; [constructor|].
  cbn [receive_loop]. apply Forall_iobind; [apply loop_body_calls|].
  intros [conn' [c'|]] Hs; [|constructor].
  rewrite <- (loop_body_socket _ _ _ _ _ Hs). apply IH.
Qed.

Lemma sent_app (t1 t2 : trace) : sent (t1 ++ t2) = sent t1 ++ sent t2.
Proof. apply flat_map_app. Qed.

(** Starting with setup incomplete, a pass sends nothing but the failure
    template and leaves setup incomplete. *)
Lemma loop_body_never_completes (conn : socket) (env : iteration) :
  Forall (fun d => create_ng_setup_failure default_cause = Ok d)
    (sent (fst (loop_body conn false env)))
  /\ forall conn' c',
       snd (loop_body conn false env) = Ok (conn', Next c') -> c' = false.
Proof.
  unfold loop_body, settimeout.
  destruct (on_settimeout env); cbn [call iobind ret app fst snd];
    [|split; [constructor|discriminate]].
  fold (timed conn). unfold on_data, recv. cbn [gettimeout timed fileno].
  destruct (on_recv env) as [avail|e]; cbn [iobind try_except].
  2:{ destruct e; cbn; split; try constructor; try discriminate;
      intros ? ? [= _ <-]; reflexivity. }
  destruct (firstn (Z.to_nat 4096) avail) as [|b0 data] eqn:Edata.
  { cbn. split; [constructor|discriminate]. }
  cbn [negb andb].
  destruct (Z.gtb_spec (len (b0 :: data)) 4) as [Hl|Hl].
  2:{ cbn. split; [constructor|]. intros ? ? [= _ <-]. reflexivity. }
  destruct data as [|b1 [|b2 [|b3 payload]]]; try (cbv in Hl; discriminate).
  rewrite decode_header_cons. cbn [lift iobind app procedure_code].
  destruct (Z.eqb_spec (int_of_byte b0) NG_SETUP_REQUEST) as [Hpc|Hpc].
  2:{ cbn. split; [constructor|]. intros ? ? [= _ <-]. reflexivity. }
  assert (Hgate : passes_gate (b0 :: b1 :: b2 :: b3 :: payload) = true).
  { apply passes_gate_first_byte. split; [exact Hl|]. cbn. rewrite Hpc.
    reflexivity. }
  apply gate_excludes_setup_request in Hgate.
  destruct (handle_ng_setup_request_replies (timed conn)
              (b0 :: b1 :: b2 :: b3 :: payload) (on_send env))
    as (reply & done & -> & Hlooks & Hcases).
  rewrite Hgate in Hlooks. injection Hlooks as <-.
  destruct Hcases as [[? _]|[_ Hreply]]; [discriminate|].
  destruct (on_send env) as [|e]; cbn.
  - split; [repeat constructor; exact Hreply|].
    intros ? ? [= _ <-]. reflexivity.
  - destruct e; cbn; (split; [repeat constructor; exact Hreply|]);
      try discriminate; intros ? ? [= _ <-]; reflexivity.
Qed.

(** The slip behind C1: whatever the peer sends, the handler thread never
    sends the success template; every reply it sends is the failure
    template with the default cause. *)
Lemma handler_never_sends_success (script : list iteration) :
  forall conn : socket,
    Forall (fun d => create_ng_setup_failure default_cause = Ok d)
      (sent (fst (receive_loop conn false script))).
Proof.
  induction script as [|env rest IH]; intros conn; [constructor|].
  cbn [receive_loop].
  destruct (loop_body_never_completes conn env) as [Hsent Hc].
  destruct (loop_body conn false env) as [t [[conn' [c'|]]|e]];
    cbn [iobind fst snd] in *.
  - rewrite (Hc conn' c' eq_refl).
    specialize (IH conn').
    destruct (receive_loop conn' false rest) as [t2 r2]. cbn [fst] in *.
    rewrite sent_app. apply Forall_app. split; assumption.
  - cbn. rewrite app_nil_r. exact Hsent.
  - exact Hsent.
Qed.

End MockLoop.

(** ** Acceptors, registry and shutdown *)

Section Registry.

Lemma mock_accept_loop_trace (script : list accept_outcome) :
  forall sock : socket,
    MockAMF.accept_loop sock script
    = (flat_map (accept_calls handle_ngap_connection_target (fileno sock)) script,
       Ok tt).
Proof.
  induction script as [|o rest IH]; intros sock; [reflexivity|].
  cbn [MockAMF.accept_loop flat_map].
  destruct o as [fd peer|e]; cbn; rewrite IH; reflexivity.
Qed.

Lemma bridge_accept_loop_trace (script : list accept_outcome) :
  forall sock : socket,
    SCTPBridge.accept_loop sock script
    = (flat_map (accept_calls handle_tcp_to_sctp_target (fileno sock)) script,
       Ok tt).
Proof.
  induction script as [|o rest IH]; intros sock; [reflexivity|].
  cbn [SCTPBridge.accept_loop flat_map].
  destruct o as [fd peer|e]; cbn; rewrite IH; reflexivity.
Qed.

Lemma accepted_is_started
    (f : target) (listener : handle) (script : list accept_outcome)
    (fd : handle) (peer : address) :
  In (Accepted fd peer) script ->
  In (ThreadStart f fd peer) (flat_map (accept_calls f listener) script).
Proof.
  intros Hin. apply in_flat_map. exists (Accepted fd peer).
  split; [exact Hin|]. cbn. auto.
Qed.

Lemma registry_after_app (t1 t2 : trace) (m : gmap string handle) :
  registry_after (t1 ++ t2) m = registry_after t2 (registry_after t1 m).
Proof. apply fold_left_app. Qed.

Lemma registry_after_quiet (t : trace) (m : gmap string handle) :
  registry_events t = [] -> registry_after t m = m.
Proof.
  induction t as [|ev t IH]; [reflexivity|].
  cbn [registry_events flat_map]. intros H.
  destruct ev; try discriminate; cbn; apply IH; exact H.
Qed.

Lemma loop_calls_quiet (fd : handle) (t : trace) :
  Forall (loop_call fd) t -> registry_events t = [] /\ closed t = [].
Proof.
  induction 1 as [|ev t Hev _ [IH1 IH2]]; [split; reflexivity|].
  destruct ev; cbn in Hev; try contradiction; cbn; auto.
Qed.

Lemma unregister_removes (id : string) (m : gmap string handle) :
  apply_event m (Unregister id) !! id = None.
Proof.
  cbn. destruct (m !! id) eqn:E; [apply lookup_delete_eq|exact E].
Qed.

Lemma unregister_other (id id' : string) (m : gmap string handle) :
  id <> id' -> apply_event m (Unregister id) !! id' = m !! id'.
Proof.
  intros Hne. cbn. destruct (m !! id); [|reflexivity].
  apply lookup_delete_ne, Hne.
Qed.

(** The for loop of [stop] calls [close] on every item and never lets an
    exception out. *)
Lemma close_each_swallows
    (items : list (string * handle)) (on_close : handle -> outcome) :
  MockAMF.close_each items on_close = (map (fun i => Close i.2) items, Ok tt).
Proof.
  induction items as [|[id conn] rest IH]; [reflexivity|].
  cbn [MockAMF.close_each map]. rewrite IH.
  destruct (on_close conn); reflexivity.
Qed.

(** C9.  Whatever the individual [close] calls do, [stop] lets no
    exception out, has called [close] on every registered connection, and
    leaves [running] false and [connections] empty. *)
Theorem stop_clears_registry
    (self : MockAMF.state) (on_close : handle -> outcome) :
  snd (snd (MockAMF.stop self on_close)) = Ok tt
  /\ MockAMF.connections (fst (MockAMF.stop self on_close)) = ∅
  /\ size (MockAMF.connections (fst (MockAMF.stop self on_close))) = 0%nat
  /\ MockAMF.running (fst (MockAMF.stop self on_close)) = false
  /\ closed (fst (snd (MockAMF.stop self on_close)))
     = map snd (map_to_list (MockAMF.connections self)).
Proof.
  unfold MockAMF.stop. cbn [MockAMF.connections].
  rewrite close_each_swallows. cbn.
  repeat split; try reflexivity.
  induction (map_to_list (MockAMF.connections self)) as [|[id c] l IH];
    [reflexivity|].
  cbn. rewrite IH. reflexivity.
Qed.

End Registry.

(** ** The bridge loop *)

Section Bridge.

Import SCTPBridge.

(** [if src in readable: forward] *)
Lemma forward_if_readable_cases
    (src dst : socket) (readable : list handle)
    (o_recv : recv_outcome) (o_send : outcome) :
  let m := if mem src readable then forward src dst o_recv o_send
           else ret Continue in
  forwarded src dst readable o_recv o_send (fst m)
    (match snd m with Ok Continue => true | _ => false end)
  /\ (empty_read (fst m) = true -> snd m = Ok Break)
  /\ (snd m = Ok Continue -> empty_read (fst m) = false).
Proof.
  destruct (mem src readable) eqn:Hm; cbv zeta.
  2:{ split; [apply fw_skip, Hm|]. split; [discriminate|reflexivity]. }
  unfold forward, recv.
  destruct o_recv as [avail|e]; cbn [iobind].
  - pose proof (firstn_le_length (Z.to_nat 4096) avail) as Hlen.
    change (Z.to_nat 4096) with 4096%nat in *.
    destruct (firstn 4096 avail) as [|b d] eqn:E.
    + cbn. split; [apply (fw_eof _ _ _ _ _ avail Hm eq_refl E)|].
      split; [reflexivity|discriminate].
    + assert (Hdata : forwarded src dst readable (Pending avail) o_send
                        [Recv (fileno src) 4096 (gettimeout src) (Ok (b :: d));
                         Send (fileno dst) (b :: d)]
                        (match o_send with Returns => true | Raises _ => false end)).
      { apply (fw_data _ _ _ _ _ avail (b :: d) Hm eq_refl);
          [symmetry; exact E|discriminate|exact Hlen]. }
      destruct o_send; cbn.
      * split; [exact Hdata|]. split; [discriminate|reflexivity].
      * split; [exact Hdata|]. split; discriminate.
  - cbn. split; [apply (fw_error _ _ _ _ _ e Hm eq_refl)|]. split; discriminate.
Qed.

Lemma empty_read_app (t1 t2 : trace) :
  empty_read (t1 ++ t2) = empty_read t1 || empty_read t2.
Proof. apply existsb_app. Qed.

(** One pass: the calls have the shape of [wake_calls]; an empty read
    breaks out of the loop; so does an exceptional condition, unless an
    exception has left the loop already. *)
Lemma bridge_body_cases (tcp_conn sctp_sock : socket) (w : wake) :
  wake_calls tcp_conn sctp_sock w (fst (bridge_body tcp_conn sctp_sock w))
  /\ (empty_read (fst (bridge_body tcp_conn sctp_sock w)) = true ->
      snd (bridge_body tcp_conn sctp_sock w) = Ok Break)
  /\ (forall readable x xs,
        on_select w = Ready readable (x :: xs) ->
        snd (bridge_body tcp_conn sctp_sock w) <> Ok Continue).
Proof.
  unfold bridge_body, select.
  destruct (on_select w) as [readable exceptional|e] eqn:Hsel; cbn [iobind].
  2:{ cbn. split; [apply (wc_raises _ _ _ e Hsel)|].
      split; discriminate. }
  destruct (forward_if_readable_cases tcp_conn sctp_sock readable
              (on_tcp_recv w) (on_sctp_send w)) as (F1 & B1 & C1).
  destruct (forward_if_readable_cases sctp_sock tcp_conn readable
              (on_sctp_recv w) (on_tcp_send w)) as (F2 & B2 & C2).
  cbv zeta in *.
  destruct (if mem tcp_conn readable then _ else _) as [t1 [f1|e1]];
    cbn -[empty_read] in *.
  2:{ split; [|split].
      - apply (wc_stopped _ _ _ readable exceptional t1 Hsel F1).
      - change (empty_read (?x :: ?l)) with (empty_read l).
        intros H. specialize (B1 H). discriminate.
      - discriminate. }
  destruct f1.
  2:{ cbn -[empty_read]. rewrite ?app_nil_r. split; [|split].
      - apply (wc_stopped _ _ _ readable exceptional t1 Hsel F1).
      - reflexivity.
      - discriminate. }
  specialize (C1 eq_refl).
  assert (Hshape : forall t2 g,
             forwarded sctp_sock tcp_conn readable
               (on_sctp_recv w) (on_tcp_send w) t2 g ->
             wake_calls tcp_conn sctp_sock w
               (Select [fileno tcp_conn; fileno sctp_sock]
                  [fileno tcp_conn; fileno sctp_sock] (Some 1%positive)
                :: t1 ++ t2)).
  { intros t2 g H2. apply (wc_ready _ _ _ readable exceptional t1 t2 g Hsel F1 H2). }
  destruct (if mem sctp_sock readable then _ else _) as [t2 [f2|e2]];
    cbn -[empty_read] in *.
  2:{ split; [|split].
      - apply (Hshape t2 _ F2).
      - change (empty_read (?x :: ?l)) with (empty_read l).
        rewrite empty_read_app, C1. cbn [orb].
        intros H. specialize (B2 H). discriminate.
      - discriminate. }
  destruct f2.
  2:{ cbn -[empty_read]. rewrite ?app_nil_r. split; [|split].
      - apply (Hshape t2 _ F2).
      - reflexivity.
      - discriminate. }
  specialize (C2 eq_refl).
  assert (Hquiet : empty_read (t1 ++ t2) = false).
  { rewrite empty_read_app, C1, C2. reflexivity. }
  destruct exceptional as [|x xs]; cbn -[empty_read]; rewrite ?app_nil_r.
  - split; [|split].
    + apply (Hshape t2 _ F2).
    + change (empty_read (?x :: ?l)) with (empty_read l).
      rewrite Hquiet. discriminate.
    + intros r x xs [= _ ?].
  - split; [|split].
    + apply (Hshape t2 _ F2).
    + reflexivity.
    + discriminate.
Qed.

Lemma bridge_loop_stops
    (tcp_conn sctp_sock : socket) (w : wake) (rest : list wake) :
  snd (bridge_body tcp_conn sctp_sock w) <> Ok Continue ->
  fst (bridge_loop tcp_conn sctp_sock (w :: rest))
  = fst (bridge_body tcp_conn sctp_sock w).
Proof.
  intros Hstop. cbn [bridge_loop].
  destruct (bridge_body tcp_conn sctp_sock w) as [t [[|]|e]]; cbn in *;
    rewrite ?app_nil_r; congruence.
Qed.

Lemma bridge_loop_continues
    (tcp_conn sctp_sock : socket) (pre rest : list wake) :
  Forall (fun w => snd (bridge_body tcp_conn sctp_sock w) = Ok Continue) pre ->
  fst (bridge_loop tcp_conn sctp_sock (pre ++ rest))
  = flat_map (fun w => fst (bridge_body tcp_conn sctp_sock w)) pre
    ++ fst (bridge_loop tcp_conn sctp_sock rest).
Proof.
  induction 1 as [|w pre Hw _ IH]; [reflexivity|].
  cbn [app bridge_loop flat_map].
  destruct (bridge_body tcp_conn sctp_sock w) as [t r]. cbn in Hw. subst r.
  cbn [iobind fst]. rewrite <- app_assoc, <- IH.
  destruct (bridge_loop tcp_conn sctp_sock (pre ++ rest)). reflexivity.
Qed.

Lemma bridge_loop_calls (tcp_conn sctp_sock : socket) (script : list wake) :
  exists per_wake,
    fst (bridge_loop tcp_conn sctp_sock script) = concat per_wake
    /\ Forall2 (wake_calls tcp_conn sctp_sock)
         (firstn (length per_wake) script) per_wake.
Proof.
  induction script as [|w rest (pw & E & F)]; [exists []; split; constructor|].
  destruct (bridge_body_cases tcp_conn sctp_sock w) as (Hw & _ & _).
  cbn [bridge_loop].
  destruct (bridge_body tcp_conn sctp_sock w) as [t [[|]|e]]; cbn in Hw |- *.
  - exists (t :: pw). split.
    + destruct (bridge_loop tcp_conn sctp_sock rest). cbn in *. congruence.
    + cbn. constructor; assumption.
  - exists [t]. split; [reflexivity|]. cbn. repeat constructor. assumption.
  - exists [t]. split; [cbn; rewrite app_nil_r; reflexivity|].
    cbn. repeat constructor. assumption.
Qed.

Lemma wake_calls_closed (tcp_conn sctp_sock : socket) (w : wake) (t : trace) :
  wake_calls tcp_conn sctp_sock w t -> closed t = [].
Proof.
  intros [e _|readable exceptional t1 _ H1
         |readable exceptional t1 t2 g _ H1 H2]; [reflexivity| |].
  - destruct H1; reflexivity.
  - cbn. unfold closed. rewrite flat_map_app. destruct H1, H2; reflexivity.
Qed.

Lemma per_wake_closed
    (tcp_conn sctp_sock : socket) (ws : list wake) (per_wake : list trace) :
  Forall2 (wake_calls tcp_conn sctp_sock) ws per_wake ->
  closed (concat per_wake) = [].
Proof.
  induction 1 as [|w t ws pw Hw _ IH]; [reflexivity|].
  cbn [concat]. unfold closed in *. rewrite flat_map_app, IH, app_nil_r.
  apply (wake_calls_closed _ _ _ _ Hw).
Qed.

(** With both [close] calls returning, the calls of the thread are those
    of [handle_tcp_to_sctp]. *)
Lemma handle_tcp_to_sctp_io_returns
    (tcp_conn : socket) (peer : address) (env : handler_env) :
  handle_tcp_to_sctp_io tcp_conn peer env Returns Returns
  = (handle_tcp_to_sctp tcp_conn peer env, Ok tt).
Proof.
  unfold handle_tcp_to_sctp_io, handle_tcp_to_sctp.
  destruct (on_probe env) as [fd| |fd e]; cbn;
    rewrite <- ?app_assoc; reflexivity.
Qed.

(** C6.  In bridge mode the handler's calls are the [connect], then one
    group of calls per pass of the loop, then the teardown.  Each group is
    a [select] on both sockets; a socket not reported readable is left
    alone, a socket reported readable is read once, for at most 4096
    bytes, and exactly the bytes read are sent to the other socket, the
    TCP side first.  The first pass with an empty read or an exceptional
    condition is the last one.  The teardown calls [close] on the SCTP
    socket and then on the TCP socket, with one exception, where the code
    departs from the claim: when the [close] of the SCTP socket raises,
    the exception leaves the thread and the TCP socket is never closed. *)
Theorem bridge_forwards_until_teardown
    (tcp_conn : socket) (peer : address) (env : handler_env) (fd : handle)
    (on_sctp_close on_tcp_close : outcome) :
  on_probe env = Connected fd ->
  let sctp_sock := {| fileno := fd; gettimeout := None |} in
  let run :=
    handle_tcp_to_sctp_io tcp_conn peer env on_sctp_close on_tcp_close in
  let teardown :=
    Close fd :: match on_sctp_close with
                | Returns => [Close (fileno tcp_conn)]
                | Raises _ => []
                end in
  (exists per_wake,
     fst run = Connect fd None :: concat per_wake ++ teardown
     /\ Forall2 (wake_calls tcp_conn sctp_sock)
          (firstn (length per_wake) (wakes env)) per_wake)
  /\ (forall (pre : list wake) (w : wake) (rest : list wake),
        wakes env = pre ++ w :: rest ->
        Forall (fun w => snd (bridge_body tcp_conn sctp_sock w) = Ok Continue)
          pre ->
        (empty_read (fst (bridge_body tcp_conn sctp_sock w)) = true
         \/ exists readable x xs, on_select w = Ready readable (x :: xs)) ->
        fst run
        = Connect fd None
          :: flat_map (fun w => fst (bridge_body tcp_conn sctp_sock w)) pre
          ++ fst (bridge_body tcp_conn sctp_sock w)
          ++ teardown)
  /\ closed (fst run)
     = match on_sctp_close with
       | Returns => [fd; fileno tcp_conn]
       | Raises _ => [fd]
       end
  /\ snd run
     = match on_sctp_close with
       | Returns => match on_tcp_close with
                    | Returns => Ok tt
                    | Raises e => Raise e
                    end
       | Raises e => Raise e
       end.
Proof.
  intros Hprobe sctp_sock run teardown.
  assert (Hrun :
    run = (Connect fd None
             :: fst (bridge_loop tcp_conn sctp_sock (wakes env)) ++ teardown,
           match on_sctp_close with
           | Returns => match on_tcp_close with
                        | Returns => Ok tt
                        | Raises e => Raise e
                        end
           | Raises e => Raise e
           end)).
  { unfold run, teardown, handle_tcp_to_sctp_io. rewrite Hprobe.
    destruct on_sctp_close, on_tcp_close; cbn; rewrite <- ?app_assoc;
      rewrite ?app_nil_r; reflexivity. }
  rewrite Hrun. cbn [fst snd].
  destruct (bridge_loop_calls tcp_conn sctp_sock (wakes env)) as (pw & E & F).
  split; [|split; [|split]].
  - exists pw. rewrite E. auto.
  - intros pre w rest Hwakes Hpre Hstop.
    rewrite Hwakes, (bridge_loop_continues _ _ _ _ Hpre).
    rewrite bridge_loop_stops, <- app_assoc; [reflexivity|].
    destruct (bridge_body_cases tcp_conn sctp_sock w) as (_ & Hempty & Hexc).
    destruct Hstop as [He|(r & x & xs & Hsel)].
    + rewrite (Hempty He). discriminate.
    + apply (Hexc _ _ _ Hsel).
  - rewrite E. change (closed (?x :: ?t)) with (closed [x] ++ closed t).
    unfold closed at 2. rewrite flat_map_app.
    fold (closed (concat pw)). rewrite (per_wake_closed _ _ _ _ F).
    unfold teardown. destruct on_sctp_close; reflexivity.
  - reflexivity.
Qed.

Lemma bridge_forwards_until_teardown_witness :
  let tcp_conn := {| fileno := 7%nat; gettimeout := None |} in
  let sctp_sock := {| fileno := 9%nat; gettimeout := None |} in
  let relay := {| on_select := Ready [7%nat] [];
                  on_tcp_recv := Pending ["h"; "i"]%byte;
                  on_sctp_send := Returns;
                  on_sctp_recv := Pending [];
                  on_tcp_send := Returns |} in
  let eof := {| on_select := Ready [9%nat] [];
                on_tcp_recv := Pending ["x"]%byte;
                on_sctp_send := Returns;
                on_sctp_recv := Pending [];
                on_tcp_send := Returns |} in
  let env := {| on_probe := Connected 9%nat;
                wakes := [relay; eof; relay];
                mock := {| on_first_recv := Pending [];
                           on_response := Returns;
                           on_later_recv := [] |} |} in
  let run := handle_tcp_to_sctp_io tcp_conn ("10.0.0.1"%string, 5000) env
               (Raises OSError) Returns in
  (exists per_wake,
     fst run = Connect 9%nat None :: concat per_wake ++ [Close 9%nat]
     /\ Forall2 (wake_calls tcp_conn sctp_sock)
          (firstn (length per_wake) (wakes env)) per_wake)
  /\ fst run
     = [Connect 9%nat None;
        Select [7%nat; 9%nat] [7%nat; 9%nat] (Some 1%positive);
        Recv 7%nat 4096 None (Ok ["h"; "i"]%byte);
        Send 9%nat ["h"; "i"]%byte;
        Select [7%nat; 9%nat] [7%nat; 9%nat] (Some 1%positive);
        Recv 9%nat 4096 None (Ok []);
        Close 9%nat]
  /\ closed (fst run) = [9%nat]
  /\ snd run = Raise OSError.
Proof.
  intros tcp_conn sctp_sock relay eof env run.
  destruct (bridge_forwards_until_teardown tcp_conn ("10.0.0.1"%string, 5000)
              env 9%nat (Raises OSError) Returns eq_refl)
    as (Hshape & Hstop & Hclosed & Hraise).
  split; [exact Hshape|]. split; [|split; [exact Hclosed|exact Hraise]].
  apply (Hstop [relay] eof [relay]).
  - reflexivity.
  - repeat constructor.
  - left. reflexivity.
Defined.

End Bridge.

(** ** The fallback handler of the bridge, and both acceptors *)

Section Fallback.

Import SCTPBridge.

Lemma keep_alive_calls (conn : socket) (script : list recv_outcome) :
  Forall (fallback_call conn) (fst (keep_alive conn script)).
Proof.
  induction script as [|o rest IH]; [constructor|].
  cbn [keep_alive]. apply Forall_iobind.
  - apply Forall_try_except.
    + apply Forall_iobind; [repeat constructor|].
      intros [|b d] _; constructor.
    + intros [] _; constructor.
  - intros [|] _; [exact IH|constructor].
Qed.

Lemma recv_comes_first {A}
    (conn : socket) (n : Z) (o : recv_outcome)
    (k : bytes -> io A) (h : exn -> io A) :
  exists r rest,
    fst (try_except (iobind (recv conn n o) k) h)
    = Recv (fileno conn) n (gettimeout conn) r :: rest.
Proof.
  unfold recv. destruct o as [avail|e]; cbn [iobind try_except].
  - destruct (k _) as [t2 [a|e]]; cbn [try_except app fst].
    + eexists _, _; reflexivity.
    + destruct (h e) as [t3 r3]. eexists _, _; reflexivity.
  - destruct (h e) as [t3 r3]. eexists _, _; reflexivity.
Qed.

Lemma handle_mock_amf_calls (conn : socket) (peer : address) (env : mock_env) :
  Forall (fallback_call conn) (fst (handle_mock_amf conn peer env))
  /\ exists r rest,
       fst (handle_mock_amf conn peer env)
       = Recv (fileno conn) 4096 (gettimeout conn) r :: rest.
Proof.
  split.
  - unfold handle_mock_amf. apply Forall_try_except; [|intros; constructor].
    apply Forall_iobind; [repeat constructor|].
    intros [|b d] _; [constructor|].
    apply Forall_iobind; [repeat constructor|].
    intros _ _. apply keep_alive_calls.
  - unfold handle_mock_amf. apply recv_comes_first.
Qed.

Lemma fallback_recv_timeouts (conn : socket) (t : trace) :
  Forall (fallback_call conn) t ->
  Forall (eq (gettimeout conn)) (recv_timeouts t)
  /\ registry_events t = [] /\ closed t = [].
Proof.
  induction 1 as [|ev t Hev _ (IH1 & IH2 & IH3)]; [repeat split; constructor|].
  destruct ev; cbn in Hev; try contradiction; cbn; auto.
  destruct Hev as (_ & _ & ->). auto.
Qed.

Lemma loop_recv_timeouts (fd : handle) (t : trace) :
  Forall (loop_call fd) t ->
  Forall (eq (Some 5%positive)) (recv_timeouts t).
Proof.
  induction 1 as [|ev t Hev _ IH]; [constructor|].
  destruct ev; cbn in Hev; try contradiction; cbn; auto.
  destruct Hev as (_ & _ & ->). auto.
Qed.

(** The waits that do carry a timeout: every [recv] of the Mock AMF
    handler (5 seconds), every [accept] of both acceptors and every
    [select] of the bridge loop (1 second). *)
Lemma bounded_waits :
  (forall conn peer script,
      Forall (eq (Some 5%positive))
        (recv_timeouts (MockAMF.handle_ngap_connection conn peer script)))
  /\ (forall f listener script,
        Forall (eq (Some 1%positive))
          (wait_timeouts (flat_map (accept_calls f listener) script)))
  /\ (forall tcp_conn sctp_sock w t,
        wake_calls tcp_conn sctp_sock w t ->
        wait_timeouts t = [Some 1%positive]).
Proof.
  split; [|split].
  - intros conn peer script. unfold MockAMF.handle_ngap_connection.
    cbn [app recv_timeouts flat_map]. fold (recv_timeouts).
    unfold recv_timeouts. rewrite flat_map_app. cbn. rewrite app_nil_r.
    apply (loop_recv_timeouts (fileno conn)), receive_loop_calls.
  - intros f listener script. induction script as [|o rest IH]; [constructor|].
    cbn [flat_map]. unfold wait_timeouts in *. rewrite flat_map_app.
    apply Forall_app. split; [|exact IH].
    destruct o; repeat constructor.
  - intros tcp_conn sctp_sock w t Hw.
    destruct Hw as [e _|readable exceptional t1 _ H1
                   |readable exceptional t1 t2 g _ H1 H2]; [reflexivity| |].
    + destruct H1; reflexivity.
    + cbn. unfold wait_timeouts. rewrite flat_map_app.
      destruct H1, H2; reflexivity.
Qed.

(** C5 fails on the code.  A connection accepted by the bridge whose SCTP
    probe did not connect is served by [handle_mock_amf]: its first call
    is a [recv] on the accepted socket, which is in blocking mode, and
    every [recv] of the handler is made in blocking mode. *)
Theorem mock_mode_recv_without_timeout
    (listener : socket) (o : accept_outcome)
    (conn : socket) (peer : address) (env : handler_env) :
  snd (accept listener o) = Ok (conn, peer) ->
  (forall fd, on_probe env <> Connected fd) ->
  (exists probe r rest,
     handle_tcp_to_sctp conn peer env
     = probe ++ Recv (fileno conn) 4096 None r :: rest
     /\ recv_timeouts probe = [])
  /\ Forall (eq None) (recv_timeouts (handle_tcp_to_sctp conn peer env))
  /\ existsb blocking_recv (handle_tcp_to_sctp conn peer env) = true.
Proof.
  intros Hacc Hprobe.
  assert (Hblock : gettimeout conn = None).
  { destruct o; cbn in Hacc; [injection Hacc as <- _; reflexivity|discriminate]. }
  destruct (handle_mock_amf_calls conn peer (mock env)) as (Hcalls & r & rest & E).
  apply fallback_recv_timeouts in Hcalls as (Htm & _ & _).
  rewrite Hblock in *.
  assert (Htrace : exists probe,
             handle_tcp_to_sctp conn peer env
             = probe ++ fst (handle_mock_amf conn peer (mock env))
               ++ [Close (fileno conn)]
             /\ recv_timeouts probe = []).
  { unfold handle_tcp_to_sctp.
    destruct (on_probe env) as [fd| |fd e] eqn:Ep.
    - destruct (Hprobe fd). reflexivity.
    - exists []. split; reflexivity.
    - exists [Connect fd None]. split; reflexivity. }
  destruct Htrace as (probe & Ht & Hp).
  split; [|split].
  - exists probe, r, (rest ++ [Close (fileno conn)]).
    rewrite Ht, E. split; [reflexivity|exact Hp].
  - rewrite Ht. unfold recv_timeouts in *. rewrite !flat_map_app, Hp.
    cbn. rewrite app_nil_r. exact Htm.
  - rewrite Ht, E, existsb_app. cbn. apply orb_true_r.
Qed.

Lemma mock_mode_recv_without_timeout_witness :
  let listener := {| fileno := 3%nat; gettimeout := Some 1%positive |} in
  let peer := ("10.0.0.1"%string, 5000) in
  let conn := {| fileno := 7%nat; gettimeout := None |} in
  let env := {| on_probe := ImportFails;
                wakes := [];
                mock := {| on_first_recv := Pending [x00; x15; x00; x01; x00]%byte;
                           on_response := Returns;
                           on_later_recv := [Pending []] |} |} in
  (exists probe r rest,
     handle_tcp_to_sctp conn peer env
     = probe ++ Recv (fileno conn) 4096 None r :: rest
     /\ recv_timeouts probe = [])
  /\ Forall (eq None) (recv_timeouts (handle_tcp_to_sctp conn peer env))
  /\ existsb blocking_recv (handle_tcp_to_sctp conn peer env) = true.
Proof.
  intros listener peer conn env.
  apply (mock_mode_recv_without_timeout listener (Accepted 7%nat peer)
           conn peer env).
  - reflexivity.
  - intros fd. discriminate.
Defined.

End Fallback.

Section Acceptors.

Lemma registry_events_app (t1 t2 : trace) :
  registry_events (t1 ++ t2) = registry_events t1 ++ registry_events t2.
Proof. apply flat_map_app. Qed.

Lemma wake_calls_quiet (tcp_conn sctp_sock : socket) (w : SCTPBridge.wake)
    (t : trace) :
  wake_calls tcp_conn sctp_sock w t -> registry_events t = [].
Proof.
  intros [e _|readable exceptional t1 _ H1
         |readable exceptional t1 t2 g _ H1 H2]; [reflexivity| |].
  - destruct H1; reflexivity.
  - cbn. rewrite registry_events_app. destruct H1, H2; reflexivity.
Qed.

Lemma bridge_loop_quiet
    (tcp_conn sctp_sock : socket) (script : list SCTPBridge.wake) :
  registry_events (fst (SCTPBridge.bridge_loop tcp_conn sctp_sock script)) = [].
Proof.
  destruct (bridge_loop_calls tcp_conn sctp_sock script) as (pw & -> & F).
  remember (firstn (length pw) script) as ws eqn:E. clear E.
  induction F as [|w t ws pw Hw _ IH]; [reflexivity|].
  cbn [concat]. rewrite registry_events_app, IH, app_nil_r.
  eapply wake_calls_quiet, Hw.
Qed.

(** The bridge handler never touches the [connections] dict. *)
Lemma handle_tcp_to_sctp_quiet
    (conn : socket) (peer : address) (env : SCTPBridge.handler_env) :
  registry_events (SCTPBridge.handle_tcp_to_sctp conn peer env) = [].
Proof.
  unfold SCTPBridge.handle_tcp_to_sctp.
  destruct (handle_mock_amf_calls conn peer (SCTPBridge.mock env)) as [Hc _].
  apply fallback_recv_timeouts in Hc as (_ & Hq & _).
  destruct (SCTPBridge.on_probe env) as [fd| |fd e]; cbn;
    rewrite ?registry_events_app, ?bridge_loop_quiet, ?Hq; reflexivity.
Qed.

Lemma accept_calls_quiet (f : target) (listener : handle)
    (script : list accept_outcome) :
  registry_events (flat_map (accept_calls f listener) script) = [].
Proof.
  induction script as [|o rest IH]; [reflexivity|].
  cbn [flat_map]. rewrite registry_events_app, IH.
  destruct o; reflexivity.
Qed.

Lemma mock_start_trace
    (self : MockAMF.state) (listener : handle) (script : list accept_outcome) :
  snd (MockAMF.start self listener Returns script)
  = flat_map (accept_calls handle_ngap_connection_target listener) script
    ++ [Close listener].
Proof.
  unfold MockAMF.start. rewrite mock_accept_loop_trace. reflexivity.
Qed.

Lemma bridge_start_trace
    (self : SCTPBridge.state) (listener : handle)
    (probe : SCTPBridge.probe_outcome) (script : list accept_outcome) :
  exists probing,
    snd (SCTPBridge.start self listener Returns probe script)
    = probing
      ++ flat_map (accept_calls handle_tcp_to_sctp_target listener) script
      ++ [Close listener]
    /\ registry_events probing = [].
Proof.
  unfold SCTPBridge.start.
  destruct probe as [fd| |fd e]; cbn; rewrite bridge_accept_loop_trace.
  - exists [Connect fd None; Close fd]. split; reflexivity.
  - exists []. split; reflexivity.
  - exists [Connect fd None]. split; reflexivity.
Qed.

(** C7, as the code has it.  Both acceptors hand every accepted
    connection to a thread of its own.  The Mock AMF thread first registers
    the connection under "host:port", makes no other change to the
    registry while it serves it, and on every way out of its loop
    unregisters that identifier and closes the socket; whatever the
    registry holds by then, the identifier is gone afterwards.  The bridge
    thread and the bridge acceptor never change the registry, which is
    empty from construction on. *)
Theorem accepted_connection_registered
    (amf : MockAMF.state) (bridge : SCTPBridge.state) (listener : handle)
    (probe : SCTPBridge.probe_outcome) (accepts : list accept_outcome)
    (fd : handle) (peer : address)
    (script : list MockAMF.iteration) (env : SCTPBridge.handler_env)
    (m : gmap string handle) :
  In (Accepted fd peer) accepts ->
  let conn := {| fileno := fd; gettimeout := None |} in
  let id := MockAMF.conn_id peer in
  (In (ThreadStart handle_ngap_connection_target fd peer)
      (snd (MockAMF.start amf listener Returns accepts))
   /\ (exists serving,
         MockAMF.handle_ngap_connection conn peer script
         = Register id fd :: serving ++ [Unregister id; Close fd]
         /\ registry_events serving = [] /\ closed serving = []
         /\ registry_after (Register id fd :: serving) m !! id = Some fd)
   /\ registry_after [Unregister id; Close fd] m !! id = None
   /\ registry_after (MockAMF.handle_ngap_connection conn peer script) m !! id
      = None)
  /\ (In (ThreadStart handle_tcp_to_sctp_target fd peer)
         (snd (SCTPBridge.start bridge listener Returns probe accepts))
      /\ registry_events
           (snd (SCTPBridge.start bridge listener Returns probe accepts)) = []
      /\ registry_events (SCTPBridge.handle_tcp_to_sctp conn peer env) = []
      /\ registry_after (SCTPBridge.handle_tcp_to_sctp conn peer env) m = m
      /\ SCTPBridge.connections
           (SCTPBridge.init (SCTPBridge.tcp_addr bridge)
              (SCTPBridge.tcp_port bridge) (SCTPBridge.sctp_addr bridge)
              (SCTPBridge.sctp_port bridge)) = ∅).
Proof.
  intros Hin conn id. split.
  - pose proof (receive_loop_calls script conn false) as Hloop.
    apply loop_calls_quiet in Hloop as [Hq Hc].
    split; [|split; [|split]].
    + rewrite mock_start_trace. apply in_or_app. left.
      apply accepted_is_started, Hin.
    + exists (fst (MockAMF.receive_loop conn false script)).
      split; [reflexivity|]. split; [exact Hq|]. split; [exact Hc|].
      change (Register id fd :: ?t) with ([Register id fd] ++ t).
      rewrite registry_after_app, (registry_after_quiet _ _ Hq).
      apply lookup_insert_eq.
    + apply (unregister_removes id m).
    + unfold MockAMF.handle_ngap_connection. fold id.
      rewrite !registry_after_app.
      apply (unregister_removes id).
  - destruct (bridge_start_trace bridge listener probe accepts)
      as (probing & -> & Hp).
    split; [|split; [|split; [|split]]].
    + apply in_or_app. right. apply in_or_app. left.
      apply accepted_is_started, Hin.
    + rewrite !registry_events_app, Hp, accept_calls_quiet. reflexivity.
    + apply handle_tcp_to_sctp_quiet.
    + apply registry_after_quiet, handle_tcp_to_sctp_quiet.
    + reflexivity.
Qed.

Lemma accepted_connection_registered_witness :
  let amf := MockAMF.init "127.0.0.4" 38412 in
  let bridge := SCTPBridge.init "127.0.0.4" 38412 "127.0.0.5" 38413 in
  let peer := ("10.0.0.1"%string, 5000) in
  let accepts := [AcceptRaises SocketTimeout; Accepted 7%nat peer] in
  let script := [{| MockAMF.on_settimeout := Returns;
                    MockAMF.on_recv := Pending [x15; x00; x00; x01; x00]%byte;
                    MockAMF.on_send := Returns;
                    MockAMF.on_keepalive := Returns |};
                 {| MockAMF.on_settimeout := Returns;
                    MockAMF.on_recv := Pending [];
                    MockAMF.on_send := Returns;
                    MockAMF.on_keepalive := Returns |}] in
  let env := {| SCTPBridge.on_probe := SCTPBridge.ImportFails;
                SCTPBridge.wakes := [];
                SCTPBridge.mock :=
                  {| SCTPBridge.on_first_recv := Pending [];
                     SCTPBridge.on_response := Returns;
                     SCTPBridge.on_later_recv := [] |} |} in
  let m : gmap string handle := ∅ in
  let conn := {| fileno := 7%nat; gettimeout := None |} in
  let id := MockAMF.conn_id peer in
  (In (ThreadStart handle_ngap_connection_target 7%nat peer)
      (snd (MockAMF.start amf 3%nat Returns accepts))
   /\ (exists serving,
         MockAMF.handle_ngap_connection conn peer script
         = Register id 7%nat :: serving ++ [Unregister id; Close 7%nat]
         /\ registry_events serving = [] /\ closed serving = []
         /\ registry_after (Register id 7%nat :: serving) m !! id = Some 7%nat)
   /\ registry_after [Unregister id; Close 7%nat] m !! id = None
   /\ registry_after (MockAMF.handle_ngap_connection conn peer script) m !! id
      = None)
  /\ (In (ThreadStart handle_tcp_to_sctp_target 7%nat peer)
         (snd (SCTPBridge.start bridge 3%nat Returns SCTPBridge.ImportFails
                 accepts))
      /\ registry_events
           (snd (SCTPBridge.start bridge 3%nat Returns SCTPBridge.ImportFails
                   accepts)) = []
      /\ registry_events (SCTPBridge.handle_tcp_to_sctp conn peer env) = []
      /\ registry_after (SCTPBridge.handle_tcp_to_sctp conn peer env) m = m
      /\ SCTPBridge.connections
           (SCTPBridge.init (SCTPBridge.tcp_addr bridge)
              (SCTPBridge.tcp_port bridge) (SCTPBridge.sctp_addr bridge)
              (SCTPBridge.sctp_port bridge)) = ∅).
Proof.
  intros amf bridge peer accepts script env m conn id.
  apply (accepted_connection_registered amf bridge 3%nat
           SCTPBridge.ImportFails accepts 7%nat peer script env m).
  right. left. reflexivity.
Defined.

(** C7 fails as stated for the bridge.  The bridge accepts a connection
    from 10.0.0.1:5000 and starts its thread; the thread relays one chunk
    and goes on until shutdown.  At no point of the thread's run does the
    registry hold an entry for "10.0.0.1:5000": every initial segment of
    its calls leaves the empty registry empty. *)
Lemma bridge_connection_never_registered :
  let bridge := SCTPBridge.init "127.0.0.4" 38412 "127.0.0.5" 38413 in
  let peer := ("10.0.0.1"%string, 5000) in
  let conn := {| fileno := 7%nat; gettimeout := None |} in
  let relay := {| SCTPBridge.on_select := SCTPBridge.Ready [7%nat] [];
                  SCTPBridge.on_tcp_recv := Pending ["h"; "i"]%byte;
                  SCTPBridge.on_sctp_send := Returns;
                  SCTPBridge.on_sctp_recv := Pending [];
                  SCTPBridge.on_tcp_send := Returns |} in
  let env := {| SCTPBridge.on_probe := SCTPBridge.Connected 9%nat;
                SCTPBridge.wakes := [relay];
                SCTPBridge.mock :=
                  {| SCTPBridge.on_first_recv := Pending [];
                     SCTPBridge.on_response := Returns;
                     SCTPBridge.on_later_recv := [] |} |} in
  In (ThreadStart handle_tcp_to_sctp_target 7%nat peer)
     (snd (SCTPBridge.start bridge 3%nat Returns (SCTPBridge.Connected 8%nat)
             [Accepted 7%nat peer]))
  /\ SCTPBridge.conn_id peer = "10.0.0.1:5000"%string
  /\ SCTPBridge.handle_tcp_to_sctp conn peer env
     = [Connect 9%nat None;
        Select [7%nat; 9%nat] [7%nat; 9%nat] (Some 1%positive);
        Recv 7%nat 4096 None (Ok ["h"; "i"]%byte);
        Send 9%nat ["h"; "i"]%byte;
        Close 9%nat; Close 7%nat]
  /\ Forall (fun t => registry_after t (SCTPBridge.connections bridge)
                      !! "10.0.0.1:5000"%string = None)
       (prefixes (SCTPBridge.handle_tcp_to_sctp conn peer env)).
Proof.
  cbv zeta. split; [|split; [|split]].
  - vm_compute. auto 10.
  - vm_compute. reflexivity.
  - vm_compute. reflexivity.
  - repeat constructor.
Qed.

End Acceptors.

(** * Further properties of the code *)

(** ** The failure template, encoded and decoded *)

Section FailureTemplate.

Import NGAPMessage.

Lemma utf8_encode_char_length (c : N) (bs : bytes) :
  utf8_encode_char c = Ok bs -> 1 <= len bs <= 4.
Proof.
  unfold utf8_encode_char.
  repeat match goal with
         | |- context [if ?b then _ else _] => destruct b
         end; intros [= <-]; cbv; split; discriminate.
Qed.

Lemma utf8_encode_length (s : str) :
  forall bs, utf8_encode s = Ok bs -> len s <= len bs <= 4 * len s.
Proof.
  induction s as [|c s IH]; intros bs; cbn [utf8_encode].
  - intros [= <-]. cbv. split; discriminate.
  - destruct (utf8_encode_char c) as [b1|e] eqn:Ec; cbn [bind]; [|discriminate].
    destruct (utf8_encode s) as [b2|e] eqn:Es; cbn [bind]; [|discriminate].
    intros [= <-]. specialize (IH b2 eq_refl).
    apply utf8_encode_char_length in Ec.
    rewrite len_app, len_cons. lia.
Qed.

(** The decoder applied to the module's own failure message: it succeeds,
    reads the outcome tag 0x40 as procedure code 64 and the procedure code
    as criticality 21, and the declared length is exactly the number of
    bytes that follow the four header bytes.  Such a message never passes
    the setup gate. *)
Theorem failure_template_decodes (cause : str) (cause_bytes : bytes) :
  utf8_encode cause = Ok cause_bytes ->
  len cause_bytes <= 247 ->
  exists out,
    create_ng_setup_failure cause = Ok out
    /\ decode_header out
       = Ok (Some {| procedure_code := 64; criticality := 21;
                     header_length := len cause_bytes + 8 |})
    /\ len (skipn 4 out) = len cause_bytes + 8
    /\ passes_gate out = false.
Proof.
  intros Henc Hlen.
  destruct (create_ng_setup_failure_fits _ _ Henc Hlen)
    as (b3 & b10 & V3 & V10 & E).
  exists (failure_head b3 b10 ++ cause_bytes). split; [exact E|].
  assert (Hd : decode_header (failure_head b3 b10 ++ cause_bytes)
               = Ok (Some {| procedure_code := 64; criticality := 21;
                             header_length := len cause_bytes + 8 |})).
  { unfold failure_head. cbn [app]. rewrite decode_header_cons, V3.
    reflexivity. }
  split; [exact Hd|]. split.
  - unfold failure_head. cbn [app skipn]. rewrite !len_cons. lia.
  - unfold passes_gate. rewrite Hd. cbn. apply andb_false_r.
Qed.

Lemma failure_template_decodes_witness :
  exists out,
    create_ng_setup_failure default_cause = Ok out
    /\ decode_header out
       = Ok (Some {| procedure_code := 64; criticality := 21;
                     header_length := 12 + 8 |})
    /\ len (skipn 4 out) = 12 + 8
    /\ passes_gate out = false.
Proof.
  apply (failure_template_decodes default_cause (map low_byte default_cause)).
  - reflexivity.
  - vm_compute. discriminate.
Defined.

(** [create_ng_setup_failure] returns exactly when the encoded cause has at
    most 247 bytes and raises [ValueError] exactly when it has more; what
    it returns is 12 bytes longer than the encoded cause. *)
Theorem create_ng_setup_failure_bound (cause : str) (cause_bytes : bytes) :
  utf8_encode cause = Ok cause_bytes ->
  ((exists out, create_ng_setup_failure cause = Ok out)
   <-> len cause_bytes <= 247)
  /\ (create_ng_setup_failure cause = Raise ValueError
      <-> 247 < len cause_bytes)
  /\ (forall out, create_ng_setup_failure cause = Ok out ->
                  len out = len cause_bytes + 12).
Proof.
  intros Henc.
  destruct (Z.le_gt_cases (len cause_bytes) 247) as [Hle|Hgt].
  - destruct (create_ng_setup_failure_fits _ _ Henc Hle)
      as (b3 & b10 & _ & _ & E).
    rewrite E. split; [|split].
    + split; [intros _; exact Hle|intros _; eauto].
    + split; [discriminate|lia].
    + intros out [= Hout]. subst out. rewrite !len_cons. lia.
  - rewrite (create_ng_setup_failure_overflows _ _ Henc Hgt). split; [|split].
    + split; [intros [out [=]]|lia].
    + split; [intros _; exact Hgt|reflexivity].
    + discriminate.
Qed.

Lemma create_ng_setup_failure_bound_witness :
  ((exists out, create_ng_setup_failure (repeat 97%N 248) = Ok out)
   <-> len (repeat "a"%byte 248) <= 247)
  /\ (create_ng_setup_failure (repeat 97%N 248) = Raise ValueError
      <-> 247 < len (repeat "a"%byte 248))
  /\ (forall out, create_ng_setup_failure (repeat 97%N 248) = Ok out ->
                  len out = len (repeat "a"%byte 248) + 12).
Proof.
  apply (create_ng_setup_failure_bound (repeat 97%N 248) (repeat "a"%byte 248)).
  vm_compute. reflexivity.
Defined.

(** A cause of at most 61 characters that can be encoded at all is always
    accepted: its encoding takes between one and four bytes per
    character. *)
Theorem short_cause_accepted (cause : str) (cause_bytes : bytes) :
  utf8_encode cause = Ok cause_bytes ->
  len cause <= 61 ->
  len cause <= len cause_bytes <= 4 * len cause
  /\ exists out, create_ng_setup_failure cause = Ok out.
Proof.
  intros Henc Hlen. pose proof (utf8_encode_length _ _ Henc) as Hb.
  split; [exact Hb|].
  destruct (create_ng_setup_failure_fits cause cause_bytes Henc)
    as (b3 & b10 & _ & _ & E); [lia|eauto].
Qed.

Lemma short_cause_accepted_witness :
  len [0x1f600; 0x20ac]%N <= len [xf0; x9f; x98; x80; xe2; x82; xac]%byte
                          <= 4 * len [0x1f600; 0x20ac]%N
  /\ exists out, create_ng_setup_failure [0x1f600; 0x20ac]%N = Ok out.
Proof.
  apply (short_cause_accepted [0x1f600; 0x20ac]%N
           [xf0; x9f; x98; x80; xe2; x82; xac]%byte).
  - reflexivity.
  - vm_compute. discriminate.
Defined.

End FailureTemplate.

(** ** The Mock AMF handler, pass by pass *)

Section MockPasses.

Import NGAPMessage MockAMF.

(** [handle_ng_setup_request] answers with the success template and
    returns [True] exactly when the message is longer than 4 bytes and
    starts with the bytes 00 15; in every other case it answers with the
    failure template for "Unknown PLMN" and returns [False].  When the
    [send] raises, the exception is the handler's and nothing else is
    sent. *)
Theorem handle_ng_setup_request_verdict (conn : socket) (data : bytes) :
  exists (looks : bool) (failure : bytes),
    create_ng_setup_failure default_cause = Ok failure
    /\ (looks = true
        <-> 4 < len data /\ getitem data 0 = Ok 0 /\ getitem data 1 = Ok 21)
    /\ handle_ng_setup_request conn data Returns
       = ([Send (fileno conn)
             (if looks then create_ng_setup_response else failure)],
          Ok looks)
    /\ forall e,
         handle_ng_setup_request conn data (Raises e)
         = ([Send (fileno conn)
               (if looks then create_ng_setup_response else failure)],
            Raise e).
Proof.
  destruct (looks_like_ng_setup_request_total data) as (b & Hb & Hiff).
  exists b. eexists. split; [apply default_cause_encodes|].
  split; [exact Hiff|].
  unfold handle_ng_setup_request. rewrite Hb. cbn [lift iobind].
  destruct b; [split; [reflexivity|intros e; reflexivity]|].
  rewrite default_cause_encodes. split; [reflexivity|intros e; reflexivity].
Qed.

(** Whatever the peer sends and whatever the socket calls do, every byte
    string the handler thread sends is the failure template for
    "Unknown PLMN": it never sends the success template and never sends the
    keepalive. *)
Theorem handler_only_sends_failure
    (conn : socket) (peer : address) (script : list iteration) :
  Forall (fun d => create_ng_setup_failure default_cause = Ok d)
    (sent (handle_ngap_connection conn peer script))
  /\ ~ In create_ng_setup_response
         (sent (handle_ngap_connection conn peer script))
  /\ ~ In keepalive (sent (handle_ngap_connection conn peer script)).
Proof.
  assert (H : Forall (fun d => create_ng_setup_failure default_cause = Ok d)
                (sent (handle_ngap_connection conn peer script))).
  { unfold handle_ngap_connection. cbn [app sent flat_map].
    fold (sent (fst (receive_loop conn false script)
                ++ [Unregister (conn_id peer); Close (fileno conn)])).
    rewrite sent_app. cbn. rewrite app_nil_r.
    apply handler_never_sends_success. }
  split; [exact H|].
  pose proof (proj1 (List.Forall_forall _ _) H) as Hall.
  split; intros Hin; apply Hall in Hin;
    rewrite default_cause_encodes in Hin; discriminate.
Qed.

Lemma receive_loop_any_timeout (script : list iteration) :
  forall (conn : socket) (c : bool),
    receive_loop (timed conn) c script = receive_loop conn c script.
Proof.
  destruct script as [|env rest]; [reflexivity|]. intros conn c.
  cbn [receive_loop]. f_equal.
Qed.

(** An idle peer is waited for without end.  While every [recv] ends in a
    timeout, each pass of the handler thread is a [settimeout(5.0)] and a
    [recv(4096)] and nothing more: nothing is sent, the socket is not
    closed, the registry entry stays, and the loop goes on with the next
    pass as if the idle passes had not been. *)
Theorem idle_connection_stays_open
    (conn : socket) (peer : address) (idle rest : list iteration) :
  Forall (fun env => on_settimeout env = Returns
                     /\ on_recv env = RecvRaises SocketTimeout) idle ->
  handle_ngap_connection conn peer (idle ++ rest)
  = Register (conn_id peer) (fileno conn)
    :: concat (map (fun _ =>
                      [SetTimeout (fileno conn) (Some 5%positive);
                       Recv (fileno conn) 4096 (Some 5%positive)
                         (Raise SocketTimeout)]) idle)
    ++ fst (receive_loop conn false rest)
    ++ [Unregister (conn_id peer); Close (fileno conn)].
Proof.
  intros Hidle. unfold handle_ngap_connection. cbn [app]. f_equal.
  rewrite app_assoc. f_equal.
  induction Hidle as [|env idle [Hst Hrecv] _ IH]; [reflexivity|].
  cbn [app receive_loop map concat].
  unfold loop_body, settimeout, on_data, recv. rewrite Hst, Hrecv.
  cbn [call iobind ret try_except app fileno gettimeout fst snd].
  fold (timed conn).
  rewrite receive_loop_any_timeout.
  destruct (receive_loop conn false (idle ++ rest)) as [t r] eqn:E.
  cbn [fst] in IH. cbn. rewrite IH. reflexivity.
Qed.

Lemma idle_connection_stays_open_witness :
  let conn := {| fileno := 7%nat; gettimeout := None |} in
  let peer := ("10.0.0.1"%string, 5000) in
  let quiet := {| on_settimeout := Returns;
                  on_recv := RecvRaises SocketTimeout;
                  on_send := Returns;
                  on_keepalive := Returns |} in
  handle_ngap_connection conn peer ([quiet; quiet] ++ [])
  = Register (conn_id peer) 7%nat
    :: concat (map (fun _ =>
                      [SetTimeout 7%nat (Some 5%positive);
                       Recv 7%nat 4096 (Some 5%positive)
                         (Raise SocketTimeout)]) [quiet; quiet])
    ++ fst (receive_loop conn false [])
    ++ [Unregister (conn_id peer); Close 7%nat].
Proof.
  intros conn peer quiet.
  apply (idle_connection_stays_open conn peer [quiet; quiet] []).
  repeat constructor.
Defined.

(** The ways out of the receive loop.  When [settimeout] raises, when
    [recv] returns no bytes, or when [recv] raises anything but a timeout,
    the pass is the last one: the handler thread sends nothing in it and
    goes straight to unregistering and closing, whatever the rest of the
    script holds. *)
Theorem receive_loop_ends
    (conn : socket) (peer : address) (env : iteration)
    (rest : list iteration) :
  (exists e, on_settimeout env = Raises e)
  \/ (on_settimeout env = Returns
      /\ (on_recv env = Pending []
          \/ exists e, on_recv env = RecvRaises e /\ e <> SocketTimeout)) ->
  handle_ngap_connection conn peer (env :: rest)
  = handle_ngap_connection conn peer [env]
  /\ sent (handle_ngap_connection conn peer (env :: rest)) = []
  /\ closed (handle_ngap_connection conn peer (env :: rest)) = [fileno conn].
Proof.
  intros Hout. unfold handle_ngap_connection, receive_loop.
  fold receive_loop. unfold loop_body, settimeout, on_data, recv.
  destruct Hout as [[e ->]|[-> [->|(e & -> & He)]]]; cbn.
  - repeat split; reflexivity.
  - repeat split; reflexivity.
  - destruct e; try contradiction; cbn; repeat split; reflexivity.
Qed.

Lemma receive_loop_ends_witness :
  let conn := {| fileno := 7%nat; gettimeout := None |} in
  let peer := ("10.0.0.1"%string, 5000) in
  let env := {| on_settimeout := Returns;
                on_recv := RecvRaises OSError;
                on_send := Returns;
                on_keepalive := Returns |} in
  let rest := [{| on_settimeout := Returns;
                  on_recv := Pending [x15; x00; x00; x01; x00]%byte;
                  on_send := Returns;
                  on_keepalive := Returns |}] in
  handle_ngap_connection conn peer (env :: rest)
  = handle_ngap_connection conn peer [env]
  /\ sent (handle_ngap_connection conn peer (env :: rest)) = []
  /\ closed (handle_ngap_connection conn peer (env :: rest)) = [fileno conn].
Proof.
  intros conn peer env rest.
  apply (receive_loop_ends conn peer env rest).
  right. split; [reflexivity|]. right. exists OSError.
  split; [reflexivity|discriminate].
Defined.

End MockPasses.

(** ** The registry under concurrent handlers *)

Section RegistryFrame.

Import MockAMF.

(** What the events of [t] make of the entry of one key. *)
Lemma apply_event_other (id : string) (ev : event) (m : gmap string handle) :
  touches id ev = false -> apply_event m ev !! id = m !! id.
Proof.
  destruct ev as [| | | | | | | |k c|k]; cbn; try reflexivity; intros Hk;
    apply String.eqb_neq in Hk.
  - apply lookup_insert_ne, Hk.
  - destruct (m !! k); [apply lookup_delete_ne, Hk|reflexivity].
Qed.

Lemma apply_event_same_entry
    (id : string) (ev : event) (m1 m2 : gmap string handle) :
  m1 !! id = m2 !! id -> apply_event m1 ev !! id = apply_event m2 ev !! id.
Proof.
  intros Hm. destruct (touches id ev) eqn:Ht.
  - destruct ev as [| | | | | | | |k c|k]; try discriminate;
      cbn in Ht; apply String.eqb_eq in Ht; subst k.
    + cbn. rewrite !lookup_insert_eq. reflexivity.
    + rewrite !unregister_removes. reflexivity.
  - rewrite !apply_event_other by exact Ht. exact Hm.
Qed.

(** The entry of a key after an interleaving is its entry after the one
    thread that touches the key. *)
Lemma registry_after_interleaving
    (id : string) (t1 t2 t : trace) :
  interleaving t1 t2 t ->
  Forall (fun ev => touches id ev = false) t2 ->
  forall m1 m : gmap string handle,
    m1 !! id = m !! id ->
    registry_after t m !! id = registry_after t1 m1 !! id.
Proof.
  induction 1 as [|x l1 l2 l _ IH|x l1 l2 l _ IH]; intros Hq m1 m Hm.
  - exact (eq_sym Hm).
  - cbn. apply IH; [exact Hq|]. apply apply_event_same_entry, Hm.
  - cbn. inversion Hq as [|? ? Hx Hq']; subst.
    apply IH; [exact Hq'|]. rewrite apply_event_other by exact Hx. exact Hm.
Qed.

Lemma interleaving_comm {A} (l1 l2 l : list A) :
  interleaving l1 l2 l -> interleaving l2 l1 l.
Proof. induction 1; constructor; assumption. Qed.

Lemma handler_touches_own_key
    (conn : socket) (peer : address) (script : list iteration) (id : string) :
  id <> conn_id peer ->
  Forall (fun ev => touches id ev = false)
    (handle_ngap_connection conn peer script).
Proof.
  intros Hne. unfold handle_ngap_connection.
  assert (Hk : (conn_id peer =? id)%string = false)
    by (apply String.eqb_neq; congruence).
  constructor; [exact Hk|]. apply Forall_app. split.
  - pose proof (receive_loop_calls script conn false) as Hloop.
    induction Hloop as [|ev t Hev _ IH]; constructor; [|exact IH].
    destruct ev; cbn in Hev; try contradiction; reflexivity.
  - repeat constructor. exact Hk.
Qed.

(** A handler thread run on its own leaves the registry as it found it,
    less its own key.  Run concurrently with any other threads that do not
    use its key, it still ends with its key absent, and it leaves every
    other key as those threads make it. *)
Theorem handler_registry_frame
    (conn : socket) (peer : address) (script : list iteration)
    (others t : trace) (m : gmap string handle) :
  interleaving (handle_ngap_connection conn peer script) others t ->
  Forall (fun ev => touches (conn_id peer) ev = false) others ->
  registry_after (handle_ngap_connection conn peer script) m
  = delete (conn_id peer) m
  /\ registry_after t m !! conn_id peer = None
  /\ forall id, id <> conn_id peer ->
       registry_after t m !! id = registry_after others m !! id.
Proof.
  intros Hil Hothers.
  assert (Hown : forall m' : gmap string handle,
             registry_after (handle_ngap_connection conn peer script) m'
             !! conn_id peer = None).
  { intros m'. unfold handle_ngap_connection.
    rewrite !registry_after_app. apply (unregister_removes (conn_id peer)). }
  split; [|split].
  - apply map_eq. intros id.
    destruct (decide (id = conn_id peer)) as [->|Hne].
    + rewrite Hown, lookup_delete_eq. reflexivity.
    + rewrite lookup_delete_ne by congruence.
      apply (registry_after_interleaving id []
               (handle_ngap_connection conn peer script)).
      * clear. induction (handle_ngap_connection conn peer script);
          constructor; assumption.
      * apply handler_touches_own_key, Hne.
      * reflexivity.
  - rewrite (registry_after_interleaving _ _ _ _ Hil Hothers m m eq_refl).
    apply Hown.
  - intros id Hne.
    apply (registry_after_interleaving id others
             (handle_ngap_connection conn peer script)).
    + apply interleaving_comm, Hil.
    + apply handler_touches_own_key, Hne.
    + reflexivity.
Qed.

Lemma handler_registry_frame_witness :
  let conn := {| fileno := 7%nat; gettimeout := None |} in
  let peer := ("10.0.0.1"%string, 5000) in
  let script := [{| on_settimeout := Returns; on_recv := Pending [];
                    on_send := Returns; on_keepalive := Returns |}] in
  let others := [Register "10.0.0.2:6000" 8%nat] in
  let t := [Register "10.0.0.1:5000" 7%nat;
            SetTimeout 7%nat (Some 5%positive);
            Register "10.0.0.2:6000" 8%nat;
            Recv 7%nat 4096 (Some 5%positive) (Ok []);
            Unregister "10.0.0.1:5000";
            Close 7%nat] in
  let m : gmap string handle := ∅ in
  registry_after (handle_ngap_connection conn peer script) m
  = delete (conn_id peer) m
  /\ registry_after t m !! conn_id peer = None
  /\ forall id, id <> conn_id peer ->
       registry_after t m !! id = registry_after others m !! id.
Proof.
  intros conn peer script others t m.
  apply (handler_registry_frame conn peer script others t m).
  - vm_compute. repeat constructor.
  - repeat constructor.
Defined.

End RegistryFrame.

(** ** Connection identifiers *)

Section ConnId.

Lemma pretty_N_go_no_colon (x : N) :
  forall s : string,
    ~ In ":"%char (list_ascii_of_string s) ->
    ~ In ":"%char (list_ascii_of_string (pretty_N_go x s)).
Proof.
  induction (N.lt_wf_0 x) as [x _ IH]; intros s Hs.
  assert (x = 0 \/ 0 < x)%N as [->|Hpos] by lia.
  - rewrite pretty_N_go_0. exact Hs.
  - rewrite pretty_N_go_step by exact Hpos. apply IH.
    + apply N.div_lt; [exact Hpos|reflexivity].
    + cbn [list_ascii_of_string]. intros [Hc|Hin]; [|exact (Hs Hin)].
      revert Hc. unfold pretty_N_char.
      repeat case_match; discriminate.
Qed.

Lemma pretty_Z_no_colon (z : Z) :
  ~ In ":"%char (list_ascii_of_string (pretty z)).
Proof.
  assert (HN : forall n : N, ~ In ":"%char (list_ascii_of_string (pretty n))).
  { intros n. unfold pretty, pretty_N. case_decide.
    - cbn. intros [Hc|[]]. discriminate.
    - apply pretty_N_go_no_colon. cbn. auto. }
  destruct z as [|p|p]; unfold pretty, pretty_Z.
  - cbn. intros [Hc|[]]. discriminate.
  - apply (HN (Npos p)).
  - cbn [String.append list_ascii_of_string]. intros [H|Hin]; [discriminate|].
    exact (HN (Npos p) Hin).
Qed.

Lemma split_at_last_colon (h1 h2 p1 p2 : string) :
  ~ In ":"%char (list_ascii_of_string p1) ->
  ~ In ":"%char (list_ascii_of_string p2) ->
  (h1 +:+ ":" +:+ p1)%string = (h2 +:+ ":" +:+ p2)%string ->
  h1 = h2 /\ p1 = p2.
Proof.
  intros H1 H2. revert h2.
  assert (Hmid : forall h p, In ":"%char
                   (list_ascii_of_string (h +:+ ":" +:+ p)%string)).
  { induction h as [|c h IH]; intros p.
    - left. reflexivity.
    - right. apply IH. }
  induction h1 as [|c h1 IH]; intros [|c2 h2];
    unfold String.append; fold String.append.
  - intros [= ->]. auto.
  - intros [= <- ->]. destruct H1. apply Hmid.
  - intros [= -> <-]. destruct H2. apply Hmid.
  - intros [= <- Heq]. destruct (IH h2 Heq) as [-> ->]. auto.
Qed.

(** Two different peers never get the same connection identifier, even
    when a host name itself holds a colon: the registry cannot confuse two
    live connections. *)
Theorem conn_id_injective (peer1 peer2 : address) :
  peer1 <> peer2 -> MockAMF.conn_id peer1 <> MockAMF.conn_id peer2.
Proof.
  destruct peer1 as [h1 p1], peer2 as [h2 p2]. unfold MockAMF.conn_id.
  cbn [fst snd]. intros Hne Heq. apply Hne.
  apply split_at_last_colon in Heq as [-> Hp]; try apply pretty_Z_no_colon.
  apply (inj pretty) in Hp. subst. reflexivity.
Qed.

Lemma conn_id_injective_witness :
  MockAMF.conn_id ("10.0.0.1:50"%string, 0) <> MockAMF.conn_id ("10.0.0.1"%string, 500).
Proof.
  apply (conn_id_injective ("10.0.0.1:50"%string, 0) ("10.0.0.1"%string, 500)).
  discriminate.
Defined.

End ConnId.

(** ** Both acceptors, from bind to shutdown *)

Section Starts.

Lemma started_app (t1 t2 : trace) : started (t1 ++ t2) = started t1 ++ started t2.
Proof. apply flat_map_app. Qed.

Lemma closed_app (t1 t2 : trace) : closed (t1 ++ t2) = closed t1 ++ closed t2.
Proof. apply flat_map_app. Qed.

Lemma accept_calls_started
    (f : target) (listener : handle) (script : list accept_outcome) :
  started (flat_map (accept_calls f listener) script)
  = map (fun c => (f, c.1, c.2)) (accepted script)
  /\ closed (flat_map (accept_calls f listener) script) = []
  /\ sent (flat_map (accept_calls f listener) script) = [].
Proof.
  induction script as [|o rest (IH1 & IH2 & IH3)]; [repeat split; reflexivity|].
  cbn [flat_map]. rewrite started_app, closed_app, sent_app, IH1, IH2, IH3.
  destruct o; repeat split; reflexivity.
Qed.

(** [MockAMF.start]: once bound, the acceptor starts one handler thread
    for each accepted connection, in the order of acceptance and for
    nothing else; a timeout or an error of [accept] only leads to the next
    [accept].  It sends nothing, leaves the registry alone, sets [running],
    and closes the listening socket, and only that one, at the end.  When
    [bind] or [listen] raises it accepts nothing and still closes the
    socket. *)
Theorem mock_start_runs
    (self : MockAMF.state) (listener : handle) (script : list accept_outcome) :
  started (snd (MockAMF.start self listener Returns script))
  = map (fun c => (handle_ngap_connection_target, c.1, c.2)) (accepted script)
  /\ closed (snd (MockAMF.start self listener Returns script)) = [listener]
  /\ sent (snd (MockAMF.start self listener Returns script)) = []
  /\ registry_events (snd (MockAMF.start self listener Returns script)) = []
  /\ MockAMF.running (fst (MockAMF.start self listener Returns script)) = true
  /\ MockAMF.connections (fst (MockAMF.start self listener Returns script))
     = MockAMF.connections self
  /\ forall e, snd (MockAMF.start self listener (Raises e) script)
               = [Close listener].
Proof.
  rewrite mock_start_trace.
  destruct (accept_calls_started handle_ngap_connection_target listener script)
    as (Hs & Hc & Hn).
  rewrite started_app, closed_app, sent_app, registry_events_app, Hs, Hc, Hn,
    accept_calls_quiet.
  cbn [started closed sent registry_events flat_map app].
  rewrite app_nil_r.
  assert (Hst : fst (MockAMF.start self listener Returns script)
                = {| MockAMF.addr := MockAMF.addr self;
                     MockAMF.port := MockAMF.port self;
                     MockAMF.running := true;
                     MockAMF.connections := MockAMF.connections self |}).
  { unfold MockAMF.start. rewrite mock_accept_loop_trace. reflexivity. }
  rewrite Hst. repeat split; reflexivity.
Qed.

(** [SCTPBridge.start]: the same acceptor, with [handle_tcp_to_sctp]
    threads, after one probe of the SCTP endpoint whose socket is closed
    again when the probe connects and is left open when [connect] fails. *)
Theorem bridge_start_runs
    (self : SCTPBridge.state) (listener : handle)
    (probe : SCTPBridge.probe_outcome) (script : list accept_outcome) :
  started (snd (SCTPBridge.start self listener Returns probe script))
  = map (fun c => (handle_tcp_to_sctp_target, c.1, c.2)) (accepted script)
  /\ closed (snd (SCTPBridge.start self listener Returns probe script))
     = match probe with
       | SCTPBridge.Connected fd => [fd; listener]
       | _ => [listener]
       end
  /\ sent (snd (SCTPBridge.start self listener Returns probe script)) = []
  /\ SCTPBridge.running
       (fst (SCTPBridge.start self listener Returns probe script)) = true
  /\ forall e, snd (SCTPBridge.start self listener (Raises e) probe script)
               = [Close listener].
Proof.
  destruct (accept_calls_started handle_tcp_to_sctp_target listener script)
    as (Hs & Hc & Hn).
  assert (Ht : snd (SCTPBridge.start self listener Returns probe script)
               = match probe with
                 | SCTPBridge.Connected fd => [Connect fd None; Close fd]
                 | SCTPBridge.ImportFails => []
                 | SCTPBridge.ConnectFails fd _ => [Connect fd None]
                 end
                 ++ flat_map (accept_calls handle_tcp_to_sctp_target listener)
                      script
                 ++ [Close listener]).
  { unfold SCTPBridge.start.
    destruct probe; cbn; rewrite bridge_accept_loop_trace; reflexivity. }
  assert (Hst : SCTPBridge.running
                  (fst (SCTPBridge.start self listener Returns probe script))
                = true).
  { unfold SCTPBridge.start.
    destruct probe; cbn; rewrite bridge_accept_loop_trace; reflexivity. }
  rewrite Ht, Hst, !started_app, !closed_app, !sent_app, Hs, Hc, Hn.
  destruct probe; cbn; rewrite ?app_nil_r; repeat split; reflexivity.
Qed.

End Starts.

(** ** The fallback handler of the bridge *)

Section FallbackReplies.

Import SCTPBridge.

Lemma keep_alive_silent (conn : socket) (script : list recv_outcome) :
  snd (keep_alive conn script) = Ok tt
  /\ sent (fst (keep_alive conn script)) = []
  /\ closed (fst (keep_alive conn script)) = [].
Proof.
  induction script as [|o rest (IH1 & IH2 & IH3)]; [repeat split; reflexivity|].
  cbn [keep_alive]. unfold recv.
  destruct (keep_alive conn rest) as [t r]. cbn [fst snd] in *. subst r.
  unfold sent, closed in *.
  destruct o as [avail|e]; cbn.
  - destruct (firstn _ avail); cbn; rewrite ?IH2, ?IH3; repeat split; reflexivity.
  - destruct e; cbn; rewrite ?IH2, ?IH3; repeat split; reflexivity.
Qed.

(** [handle_mock_amf] never raises and never closes the socket.  It sends
    the fixed 36-byte response once, without looking at what it received,
    exactly when the first [recv] returns at least one byte; after a first
    read of zero bytes or an exception it sends nothing at all. *)
Theorem fallback_replies_once (conn : socket) (peer : address) (env : mock_env) :
  snd (handle_mock_amf conn peer env) = Ok tt
  /\ closed (fst (handle_mock_amf conn peer env)) = []
  /\ len create_mock_ng_setup_response = 36
  /\ sent (fst (handle_mock_amf conn peer env))
     = match on_first_recv env with
       | Pending avail =>
           match firstn 4096 avail with
           | [] => []
           | _ :: _ => [create_mock_ng_setup_response]
           end
       | RecvRaises _ => []
       end.
Proof.
  destruct (keep_alive_silent conn (on_later_recv env)) as (K1 & K2 & K3).
  unfold handle_mock_amf, recv. change (Z.to_nat 4096) with 4096%nat.
  destruct (on_first_recv env) as [avail|e]; cbn [iobind try_except].
  - destruct (firstn 4096 avail) as [|b d]; [repeat split; reflexivity|].
    unfold send, call.
    destruct (keep_alive conn (on_later_recv env)) as [t r].
    cbn [fst snd] in *. subst r. unfold sent, closed in *.
    destruct (on_response env); cbn; rewrite ?K2, ?K3; repeat split; reflexivity.
  - cbn. repeat split; reflexivity.
Qed.

Lemma fallback_calls_wait (conn : socket) (t : trace) :
  Forall (fallback_call conn) t -> wait_timeouts t = [].
Proof.
  induction 1 as [|ev t Hev _ IH]; [reflexivity|].
  destruct ev; cbn in Hev; try contradiction; exact IH.
Qed.

(** A connection whose SCTP probe does not connect is served without a
    single [select]: the thread's calls are those of [handle_mock_amf],
    then one [close] of the TCP socket, the only socket it closes. *)
Theorem fallback_thread_closes_once
    (conn : socket) (peer : address) (env : handler_env) :
  (forall fd, on_probe env <> Connected fd) ->
  closed (handle_tcp_to_sctp conn peer env) = [fileno conn]
  /\ sent (handle_tcp_to_sctp conn peer env)
     = sent (fst (handle_mock_amf conn peer (mock env)))
  /\ wait_timeouts (handle_tcp_to_sctp conn peer env) = [].
Proof.
  intros Hprobe.
  destruct (handle_mock_amf_calls conn peer (mock env)) as [Hcalls _].
  pose proof (fallback_calls_wait conn _ Hcalls) as Hw.
  apply fallback_recv_timeouts in Hcalls as (_ & _ & Hc).
  unfold handle_tcp_to_sctp.
  destruct (on_probe env) as [fd| |fd e] eqn:Ep.
  - destruct (Hprobe fd). reflexivity.
  - cbn [try_sctp_connection ret app].
    rewrite closed_app, sent_app. unfold wait_timeouts in *.
    rewrite flat_map_app, Hc, Hw. cbn. rewrite app_nil_r.
    repeat split; reflexivity.
  - cbn [try_sctp_connection app].
    change (closed (?x :: ?t)) with (closed [x] ++ closed t).
    change (sent (?x :: ?t)) with (sent [x] ++ sent t).
    rewrite closed_app, sent_app. unfold wait_timeouts in *.
    cbn [flat_map]. rewrite flat_map_app, Hw, Hc. cbn. rewrite app_nil_r.
    repeat split; reflexivity.
Qed.

Lemma fallback_thread_closes_once_witness :
  let conn := {| fileno := 7%nat; gettimeout := None |} in
  let peer := ("10.0.0.1"%string, 5000) in
  let env := {| on_probe := ConnectFails 9%nat OSError;
                wakes := [];
                mock := {| on_first_recv := Pending [x01]%byte;
                           on_response := Raises OSError;
                           on_later_recv := [] |} |} in
  closed (handle_tcp_to_sctp conn peer env) = [fileno conn]
  /\ sent (handle_tcp_to_sctp conn peer env)
     = sent (fst (handle_mock_amf conn peer (mock env)))
  /\ wait_timeouts (handle_tcp_to_sctp conn peer env) = [].
Proof.
  intros conn peer env.
  apply (fallback_thread_closes_once conn peer env).
  intros fd. discriminate.
Defined.

End FallbackReplies.

(** ** The two byte streams of a bridged connection *)

Section BridgeStreams.

Import SCTPBridge.

Lemma sent_to_app (fd : handle) (t1 t2 : trace) :
  sent_to fd (t1 ++ t2) = sent_to fd t1 ++ sent_to fd t2.
Proof. apply flat_map_app. Qed.

Lemma received_from_app (fd : handle) (t1 t2 : trace) :
  received_from fd (t1 ++ t2) = received_from fd t1 ++ received_from fd t2.
Proof. apply flat_map_app. Qed.

Lemma forwarded_streams
    (src dst : socket) (readable : list handle)
    (o_recv : recv_outcome) (o_send : outcome) (t : trace) (g : bool) :
  forwarded src dst readable o_recv o_send t g ->
  fileno src <> fileno dst ->
  sent_to (fileno dst) t = received_from (fileno src) t
  /\ sent_to (fileno src) t = []
  /\ received_from (fileno dst) t = [].
Proof.
  intros Hf Hne.
  assert (E1 : Nat.eqb (fileno src) (fileno dst) = false)
    by (apply Nat.eqb_neq; exact Hne).
  assert (E2 : Nat.eqb (fileno dst) (fileno src) = false)
    by (apply Nat.eqb_neq; congruence).
  destruct Hf; cbn; rewrite ?Nat.eqb_refl, ?E1, ?E2, ?app_nil_r;
    repeat split; reflexivity.
Qed.

Lemma wake_streams (tcp_conn sctp_sock : socket) (w : wake) (t : trace) :
  wake_calls tcp_conn sctp_sock w t ->
  fileno tcp_conn <> fileno sctp_sock ->
  sent_to (fileno sctp_sock) t = received_from (fileno tcp_conn) t
  /\ sent_to (fileno tcp_conn) t = received_from (fileno sctp_sock) t.
Proof.
  intros [e _|readable exceptional t1 _ H1
         |readable exceptional t1 t2 g _ H1 H2] Hne; [split; reflexivity| |].
  - destruct (forwarded_streams _ _ _ _ _ _ _ H1 Hne) as (A1 & A2 & A3).
    change (sent_to ?fd (?x :: ?t)) with (sent_to fd [x] ++ sent_to fd t).
    change (received_from ?fd (?x :: ?t))
      with (received_from fd [x] ++ received_from fd t).
    rewrite A1, A2, A3. split; reflexivity.
  - destruct (forwarded_streams _ _ _ _ _ _ _ H1 Hne) as (A1 & A2 & A3).
    destruct (forwarded_streams _ _ _ _ _ _ _ H2 (not_eq_sym Hne))
      as (B1 & B2 & B3).
    change (sent_to ?fd (?x :: ?t)) with (sent_to fd [x] ++ sent_to fd t).
    change (received_from ?fd (?x :: ?t))
      with (received_from fd [x] ++ received_from fd t).
    rewrite !sent_to_app, !received_from_app, A1, A2, A3, B1, B2, B3.
    cbn. rewrite !app_nil_r. split; reflexivity.
Qed.

(** In bridge mode, over the whole life of the connection, the bytes handed
    to [send] on the SCTP socket are exactly the bytes read from the TCP
    socket, in the same order, and the other way round: nothing is
    dropped, repeated, reordered or made up, however the reads are cut
    into chunks and however the loop ends. *)
Theorem bridge_streams_intact
    (tcp_conn : socket) (peer : address) (env : handler_env) (fd : handle) :
  on_probe env = Connected fd ->
  fileno tcp_conn <> fd ->
  sent_to fd (handle_tcp_to_sctp tcp_conn peer env)
  = received_from (fileno tcp_conn) (handle_tcp_to_sctp tcp_conn peer env)
  /\ sent_to (fileno tcp_conn) (handle_tcp_to_sctp tcp_conn peer env)
     = received_from fd (handle_tcp_to_sctp tcp_conn peer env).
Proof.
  intros Hprobe Hne.
  set (sctp_sock := {| fileno := fd; gettimeout := None |}).
  assert (Htrace :
    handle_tcp_to_sctp tcp_conn peer env
    = [Connect fd None]
      ++ fst (bridge_loop tcp_conn sctp_sock (wakes env))
      ++ [Close fd; Close (fileno tcp_conn)]).
  { unfold handle_tcp_to_sctp. rewrite Hprobe. cbn.
    rewrite <- app_assoc. reflexivity. }
  destruct (bridge_loop_calls tcp_conn sctp_sock (wakes env)) as (pw & E & F).
  rewrite Htrace, E, !sent_to_app, !received_from_app. cbn.
  rewrite !app_nil_r.
  remember (firstn (length pw) (wakes env)) as ws eqn:Ews. clear Ews E Htrace.
  induction F as [|w t ws pw Hw _ [IH1 IH2]]; [split; reflexivity|].
  cbn [concat]. rewrite !sent_to_app, !received_from_app, IH1, IH2.
  destruct (wake_streams tcp_conn sctp_sock w t Hw Hne) as [Ha Hb].
  change (fileno sctp_sock) with fd in Ha, Hb. rewrite Ha, Hb.
  split; reflexivity.
Qed.

Lemma bridge_streams_intact_witness :
  let tcp_conn := {| fileno := 7%nat; gettimeout := None |} in
  let peer := ("10.0.0.1"%string, 5000) in
  let both := {| on_select := Ready [9%nat; 7%nat] [];
                 on_tcp_recv := Pending ["h"; "i"]%byte;
                 on_sctp_send := Returns;
                 on_sctp_recv := Pending ["o"; "k"]%byte;
                 on_tcp_send := Raises OSError |} in
  let env := {| on_probe := Connected 9%nat;
                wakes := [both; both];
                mock := {| on_first_recv := Pending [];
                           on_response := Returns;
                           on_later_recv := [] |} |} in
  sent_to 9%nat (handle_tcp_to_sctp tcp_conn peer env)
  = received_from (fileno tcp_conn) (handle_tcp_to_sctp tcp_conn peer env)
  /\ sent_to (fileno tcp_conn) (handle_tcp_to_sctp tcp_conn peer env)
     = received_from 9%nat (handle_tcp_to_sctp tcp_conn peer env).
Proof.
  intros tcp_conn peer both env.
  apply (bridge_streams_intact tcp_conn peer env 9%nat).
  - reflexivity.
  - discriminate.
Defined.

End BridgeStreams.

(** ** The stand-alone listener *)

Section StandAlone.

Import SimpleMock.

Lemma receive_calls (conn : socket) (script : list recv_outcome) :
  gettimeout conn = None ->
  Forall (fun ev => listener_call (SocketCall ev)) (fst (receive conn script)).
Proof.
  intros Hblock. induction script as [|o rest IH]; [constructor|].
  cbn [receive]. apply Forall_iobind.
  - unfold recv. rewrite Hblock. repeat constructor.
  - intros [|b d] _; [constructor|exact IH].
Qed.

Lemma serve_calls (server : socket) (script : list session) :
  gettimeout server = None ->
  Forall listener_call (serve server script).
Proof.
  intros Hblock. induction script as [|s rest IH]; [constructor|].
  cbn [serve].
  assert (Hsession :
    Forall (fun ev => listener_call (SocketCall ev))
      (fst (iobind (accept server (on_accept s))
              (fun x => let '(conn, _) := x in receive conn (on_recvs s))))).
  { apply Forall_iobind.
    - unfold accept. rewrite Hblock. repeat constructor.
    - intros [conn peer] Hacc. apply receive_calls.
      unfold accept in Hacc. cbn in Hacc.
      destruct (on_accept s); [injection Hacc as <- _; reflexivity|discriminate]. }
  destruct (iobind _ _) as [t r]. cbn [fst] in Hsession.
  apply Forall_app. split.
  - clear -Hsession. induction Hsession; constructor; assumption.
  - destruct r as [[|]|e]; [exact IH|constructor|].
    constructor; [reflexivity|exact IH].
Qed.

(** The stand-alone listener only ever calls [accept] and [recv(1024)],
    both on sockets in blocking mode, and [sleep(1)]: whatever the peers
    do, it never sends a byte and never closes a socket, the accepted ones
    included. *)
Theorem listener_only_listens
    (server : handle) (on_bind : outcome) (script : list session) :
  Forall listener_call (main server on_bind script).
Proof.
  unfold main. destruct on_bind; [|constructor].
  apply serve_calls. reflexivity.
Qed.

End StandAlone.

(** ** The rewriting of URIs in fix_open5gs_ports.py *)

Section Replace.

Import PyStr.

Lemma startswith_app (p rest : str) : startswith (p ++ rest) p = true.
Proof.
  induction p as [|x p IH]; [destruct rest; reflexivity|].
  cbn. rewrite N.eqb_refl. exact IH.
Qed.

Lemma startswith_split (s p : str) :
  startswith s p = true -> exists rest, s = p ++ rest.
Proof.
  revert s. induction p as [|x p IH]; intros s; [exists s; reflexivity|].
  destruct s as [|c s]; cbn; [discriminate|].
  intros [Hx Hp]%andb_true_iff. apply N.eqb_eq in Hx. subst c.
  destruct (IH s Hp) as [rest ->]. exists rest. reflexivity.
Qed.

Lemma contains_suffix (pre s p : str) :
  contains (pre ++ s) p = false -> contains s p = false.
Proof.
  induction pre as [|c pre IH]; [auto|].
  cbn [app contains]. intros [_ H]%orb_false_iff. auto.
Qed.

Variables (c : N) (w w' : str).

Let old : str := c :: w.
Let new : str := c :: w'.

Lemma replace_from_skip (pre s : str) :
  replace_from old new (length pre) (pre ++ s) = replace_from old new 0 s.
Proof. induction pre as [|x pre IH]; [reflexivity|exact IH]. Qed.

Lemma replace_from_match (rest : str) :
  replace_from old new 0 (old ++ rest) = new ++ replace_from old new 0 rest.
Proof.
  unfold old at 2. cbn [app replace_from].
  change (c :: w ++ rest) with (old ++ rest). rewrite startswith_app.
  replace (length old - 1)%nat with (length w)
    by (unfold old; cbn [length]; lia).
  rewrite replace_from_skip. reflexivity.
Qed.

Lemma replace_from_other (x : N) (rest : str) :
  startswith (x :: rest) old = false ->
  replace_from old new 0 (x :: rest) = x :: replace_from old new 0 rest.
Proof. intros H. cbn [replace_from]. rewrite H. reflexivity. Qed.

(** A string without the pattern is returned as it is. *)
Lemma replace_from_absent (s : str) :
  contains s old = false -> replace_from old new 0 s = s.
Proof.
  induction s as [|x s IH]; [reflexivity|].
  cbn [contains]. intros [Hs Hc]%orb_false_iff.
  rewrite replace_from_other by exact Hs. rewrite IH by exact Hc. reflexivity.
Qed.

Variable u : str.

Hypothesis lacks_new : lacks c w' = true.
Hypothesis lacks_u : lacks c u = true.
Hypothesis clash_new : clash u w' = true.

Lemma startswith_clash (a b x : str) :
  clash a b = true -> startswith (b ++ x) a = false.
Proof.
  revert b. induction a as [|y a IH]; intros [|z b]; cbn; try discriminate.
  intros [Hne|Hc]%orb_true_iff.
  - apply negb_true_iff in Hne. rewrite Hne. reflexivity.
  - rewrite (IH b Hc). apply andb_false_r.
Qed.

Lemma contains_after_new (x : str) :
  contains x (c :: u) = false -> contains (new ++ x) (c :: u) = false.
Proof.
  intros Hx. unfold new. cbn [app contains startswith].
  rewrite (startswith_clash u w' x clash_new), andb_false_r. cbn [orb].
  clear clash_new. induction w' as [|y l IH]; [exact Hx|].
  cbn [lacks forallb] in lacks_new.
  apply andb_true_iff in lacks_new as [Hy Hl].
  cbn [app contains startswith].
  apply negb_true_iff in Hy. rewrite N.eqb_sym in Hy. rewrite Hy. cbn [andb orb].
  apply IH, Hl.
Qed.

(** Characters other than the first of the pattern pass through. *)
Lemma replace_from_passes (s : str) :
  forall v, lacks c v = true ->
    startswith (replace_from old new 0 s) v = true -> startswith s v = true.
Proof.
  intros v. revert s. induction v as [|y v IH]; intros s Hv;
    [destruct s; reflexivity|].
  cbn [lacks forallb] in Hv. apply andb_true_iff in Hv as [Hy Hv].
  apply negb_true_iff in Hy.
  destruct s as [|x s]; [discriminate|].
  destruct (startswith (x :: s) old) eqn:Hold.
  - destruct (startswith_split _ _ Hold) as [rest ->].
    rewrite replace_from_match. unfold new. cbn [app startswith].
    rewrite Hy. discriminate.
  - rewrite replace_from_other by exact Hold. cbn [startswith].
    intros [Hx Hr]%andb_true_iff. rewrite Hx. apply (IH s Hv Hr).
Qed.

(** After the replacement the string holds no occurrence of [c :: u],
    when [u] is the tail of the pattern replaced or when the string held
    none before. *)
Lemma replace_from_clears (n : nat) :
  forall s : str,
    (length s <= n)%nat ->
    u = w \/ contains s (c :: u) = false ->
    contains (replace_from old new 0 s) (c :: u) = false.
Proof.
  induction n as [|n IH]; intros s Hn Hs.
  { destruct s; [reflexivity|cbn in Hn; lia]. }
  destruct s as [|x s]; [reflexivity|].
  assert (Htail : forall pre rest, x :: s = pre ++ rest ->
            u = w \/ contains rest (c :: u) = false).
  { intros pre rest E. destruct Hs as [Hu|Hc]; [left; exact Hu|right].
    rewrite E in Hc. apply (contains_suffix _ _ _ Hc). }
  destruct (startswith (x :: s) old) eqn:Hold.
  - destruct (startswith_split _ _ Hold) as [rest E]. rewrite E.
    rewrite replace_from_match. apply contains_after_new, IH.
    + apply (f_equal (@length N)) in E. rewrite length_app in E.
      unfold old in E. cbn [length] in E, Hn. lia.
    + apply (Htail old rest E).
  - rewrite replace_from_other by exact Hold.
    cbn [contains]. apply orb_false_iff. split.
    + cbn [startswith].
      destruct (c =? x)%N eqn:Hx; [|reflexivity]. cbn [andb].
      destruct (startswith (replace_from old new 0 s) u) eqn:Hu; [|reflexivity].
      apply (replace_from_passes s u lacks_u) in Hu.
      assert (Hp : startswith (x :: s) (c :: u) = true)
        by (cbn [startswith]; rewrite Hx, Hu; reflexivity).
      destruct Hs as [Hw|Hc].
      * subst u. unfold old in Hold. congruence.
      * cbn [contains] in Hc. rewrite Hp in Hc. discriminate.
    + apply IH; [cbn [length] in Hn; lia|]. apply (Htail [x] s eq_refl).
Qed.

End Replace.

Section ReplaceLength.

Import PyStr.

(** A replacement by a string of the same length keeps the length. *)
Lemma replace_from_length (c : N) (w w' : str) (n : nat) :
  length w = length w' ->
  forall s : str,
    (length s <= n)%nat ->
    length (replace_from (c :: w) (c :: w') 0 s) = length s.
Proof.
  intros Hw. induction n as [|n IH]; intros s Hn.
  { destruct s; [reflexivity|cbn in Hn; lia]. }
  destruct s as [|x s]; [reflexivity|].
  destruct (startswith (x :: s) (c :: w)) eqn:Hold.
  - destruct (startswith_split _ _ Hold) as [rest E]. rewrite E.
    rewrite replace_from_match, !length_app.
    apply (f_equal (@length N)) in E. rewrite length_app in E.
    cbn [length] in *. rewrite IH by lia. lia.
  - rewrite replace_from_other by exact Hold. cbn [length] in *.
    rewrite IH by lia. reflexivity.
Qed.

End ReplaceLength.

Section FixPortsFacts.

Import PyStr FixPorts.

Lemma replace_clears (s old_tail new_tail u : str) (c : N) :
  lacks c new_tail = true -> lacks c u = true -> clash u new_tail = true ->
  u = old_tail \/ contains s (c :: u) = false ->
  contains (replace s (c :: old_tail) (c :: new_tail)) (c :: u) = false.
Proof.
  intros H1 H2 H3 Hs. unfold replace.
  apply (replace_from_clears c old_tail new_tail u H1 H2 H3 (length s));
    [lia|exact Hs].
Qed.

(** The NRF client URI written back by [fix_config_file] holds no ":7777"
    any more, has the length of the URI read, is the URI read when that
    held no ":7777", and is left as it is by a second run. *)
Theorem nrf_client_uri_rewritten (uri : str) :
  exists out,
    nrf_client_uri uri = Some out
    /\ contains out (str_of_string ":7777") = false
    /\ length out = length uri
    /\ (contains uri (str_of_string ":7777") = true \/ out = uri)
    /\ nrf_client_uri out = Some out.
Proof.
  assert (Eold : str_of_string ":7777" = 58%N :: [55; 55; 55; 55]%N)
    by reflexivity.
  assert (Enew : colon_port 7783 = 58%N :: [55; 55; 56; 51]%N)
    by (vm_compute; reflexivity).
  assert (Hout : forall s,
             nrf_client_uri s
             = Some (replace s (58%N :: [55; 55; 55; 55]%N)
                       (58%N :: [55; 55; 56; 51]%N))).
  { intros s. unfold nrf_client_uri.
    change (getitem port_mapping "nrf") with (Some 7783).
    rewrite Eold, Enew. reflexivity. }
  assert (Hclear : contains
                     (replace uri (58%N :: [55; 55; 55; 55]%N)
                        (58%N :: [55; 55; 56; 51]%N))
                     (58%N :: [55; 55; 55; 55]%N) = false).
  { apply replace_clears; try reflexivity. left. reflexivity. }
  eexists. split; [apply Hout|]. rewrite Eold.
  split; [exact Hclear|]. split; [|split].
  - unfold replace. apply (replace_from_length _ _ _ (length uri)); [reflexivity|lia].
  - destruct (contains uri (58%N :: [55; 55; 55; 55]%N)) eqn:Hc; [left; reflexivity|].
    right. unfold replace. apply replace_from_absent, Hc.
  - rewrite Hout. f_equal. unfold replace at 1.
    apply replace_from_absent, Hclear.
Qed.

(** The SCP client URI written back by [fix_config_file] holds neither
    ":7777" nor ":7783", has the length of the URI read, and is left as it
    is by a second run. *)
Theorem scp_client_uri_rewritten (uri : str) :
  exists out,
    scp_client_uri uri = Some out
    /\ contains out (str_of_string ":7777") = false
    /\ contains out (str_of_string ":7783") = false
    /\ length out = length uri
    /\ scp_client_uri out = Some out.
Proof.
  assert (E1 : str_of_string ":7777" = 58%N :: [55; 55; 55; 55]%N)
    by reflexivity.
  assert (E2 : str_of_string ":7783" = 58%N :: [55; 55; 56; 51]%N)
    by reflexivity.
  assert (Enew : colon_port 7786 = 58%N :: [55; 55; 56; 54]%N)
    by (vm_compute; reflexivity).
  set (p1 := 58%N :: [55; 55; 55; 55]%N) in *.
  set (p2 := 58%N :: [55; 55; 56; 51]%N) in *.
  set (q := 58%N :: [55; 55; 56; 54]%N) in *.
  assert (Hout : forall s,
             scp_client_uri s = Some (replace (replace s p1 q) p2 q)).
  { intros s. unfold scp_client_uri.
    change (getitem port_mapping "scp") with (Some 7786).
    rewrite E1, E2, Enew. reflexivity. }
  assert (H1 : forall s, contains (replace s p1 q) p1 = false).
  { intros s. apply replace_clears; try reflexivity. left. reflexivity. }
  assert (H2 : forall s, contains s p1 = false ->
                         contains (replace s p2 q) p1 = false).
  { intros s Hs. apply replace_clears; try reflexivity. right. exact Hs. }
  assert (H3 : forall s, contains (replace s p2 q) p2 = false).
  { intros s. apply replace_clears; try reflexivity. left. reflexivity. }
  assert (Hlen : forall s a, In a [p1; p2] -> length (replace s a q) = length s).
  { intros s a [<-|[<-|[]]]; unfold replace;
      apply (replace_from_length _ _ _ (length s)); try reflexivity; lia. }
  exists (replace (replace uri p1 q) p2 q).
  split; [apply Hout|]. split; [apply H2, H1|]. split; [apply H3|]. split.
  - rewrite !Hlen; cbn; auto.
  - rewrite Hout. f_equal.
    assert (Ha : replace (replace (replace uri p1 q) p2 q) p1 q
                 = replace (replace uri p1 q) p2 q).
    { unfold replace at 1. apply replace_from_absent, H2, H1. }
    rewrite Ha. unfold replace at 1. apply replace_from_absent, H3.
Qed.

(** The text written back for an additional service holds none of the
    three URIs "http://127.0.0.1:7777", "http://127.0.0.10:7777" and
    "http://127.0.0.22:7777", and is left as it is by a second run. *)
Theorem additional_service_text_rewritten (config_str : str) :
  exists out,
    additional_service_text config_str = Some out
    /\ contains out (str_of_string "http://127.0.0.1:7777") = false
    /\ contains out (str_of_string "http://127.0.0.10:7777") = false
    /\ contains out (str_of_string "http://127.0.0.22:7777") = false
    /\ additional_service_text out = Some out.
Proof.
  set (c := 104%N).
  set (u1 := List.tl (str_of_string "http://127.0.0.1:7777")).
  set (u2 := List.tl (str_of_string "http://127.0.0.10:7777")).
  set (u3 := List.tl (str_of_string "http://127.0.0.22:7777")).
  set (n1 := List.tl (local_uri 7783)).
  set (n3 := List.tl (local_uri 7786)).
  assert (E1 : str_of_string "http://127.0.0.1:7777" = c :: u1) by reflexivity.
  assert (E2 : str_of_string "http://127.0.0.10:7777" = c :: u2) by reflexivity.
  assert (E3 : str_of_string "http://127.0.0.22:7777" = c :: u3) by reflexivity.
  assert (F1 : local_uri 7783 = c :: n1) by (vm_compute; reflexivity).
  assert (F3 : local_uri 7786 = c :: n3) by (vm_compute; reflexivity).
  assert (Hout : forall s,
             additional_service_text s
             = Some (replace (replace (replace s (c :: u1) (c :: n1))
                                (c :: u2) (c :: n1)) (c :: u3) (c :: n3))).
  { intros s. unfold additional_service_text.
    change (getitem port_mapping "nrf") with (Some 7783).
    change (getitem port_mapping "scp") with (Some 7786).
    rewrite E1, E2, E3, F1, F3. reflexivity. }
  assert (K : forall s old_tail new_tail u,
             In new_tail [n1; n3] -> In u [u1; u2; u3] ->
             u = old_tail \/ contains s (c :: u) = false ->
             contains (replace s (c :: old_tail) (c :: new_tail)) (c :: u)
             = false).
  { intros s old_tail new_tail u Hn Hu Hs.
    apply replace_clears; [| |  |exact Hs];
      destruct Hn as [<-|[<-|[]]]; try (vm_compute; reflexivity);
      destruct Hu as [<-|[<-|[<-|[]]]]; vm_compute; reflexivity. }
  set (s1 := replace config_str (c :: u1) (c :: n1)).
  set (s2 := replace s1 (c :: u2) (c :: n1)).
  set (s3 := replace s2 (c :: u3) (c :: n3)).
  assert (A1 : contains s3 (c :: u1) = false).
  { apply K; cbn; auto. right. apply K; cbn; auto. right.
    apply K; cbn; auto. }
  assert (A2 : contains s3 (c :: u2) = false).
  { apply K; cbn; auto. right. apply K; cbn; auto. }
  assert (A3 : contains s3 (c :: u3) = false).
  { apply K; cbn; auto. }
  exists s3. rewrite E1, E2, E3.
  split; [apply Hout|]. split; [exact A1|]. split; [exact A2|].
  split; [exact A3|].
  rewrite Hout. f_equal.
  assert (B1 : replace s3 (c :: u1) (c :: n1) = s3)
    by (unfold replace at 1; apply replace_from_absent, A1).
  rewrite B1.
  assert (B2 : replace s3 (c :: u2) (c :: n1) = s3)
    by (unfold replace at 1; apply replace_from_absent, A2).
  rewrite B2. unfold replace at 1. apply replace_from_absent, A3.
Qed.

End FixPortsFacts.

Section PortTable.

Import FixPorts.

Lemma getitem_missing (d : list (string * Z)) (key : string) :
  ~ In key (map fst d) -> getitem d key = None.
Proof.
  induction d as [|[k v] d IH]; [reflexivity|].
  cbn [map fst In getitem]. intros Hnot.
  destruct (String.eqb_spec k key) as [->|_]; [destruct Hnot; auto|].
  apply IH. auto.
Qed.

(** The port [fix_config_file] writes for a service.  A service of the
    table shares its port with another name in one case only: the service
    is "amf" and the other name is not in the table, so that it gets the
    default 7777. *)
Theorem server_port_collision (service other : string) :
  In service (map fst port_mapping) ->
  service <> other ->
  server_port service = server_port other ->
  service = "amf"%string
  /\ ~ In other (map fst port_mapping)
  /\ server_port other = 7777.
Proof.
  intros Hs Hne Heq.
  destruct (in_dec string_dec other (map fst port_mapping)) as [Ho|Ho].
  - exfalso. cbn in Hs, Ho.
    repeat (destruct Hs as [<-|Hs];
      [repeat (destruct Ho as [<-|Ho];
               [first [congruence | vm_compute in Heq; discriminate]|]);
       destruct Ho|]).
    destruct Hs.
  - assert (Hd : server_port other = 7777).
    { unfold server_port, get. rewrite (getitem_missing _ _ Ho). reflexivity. }
    split; [|split; [exact Ho|exact Hd]].
    rewrite Hd in Heq. cbn in Hs.
    repeat (destruct Hs as [<-|Hs];
            [first [reflexivity | vm_compute in Heq; discriminate]|]).
    destruct Hs.
Qed.

Lemma server_port_collision_witness :
  "amf"%string = "amf"%string
  /\ ~ In "upf"%string (map fst port_mapping)
  /\ server_port "upf" = 7777.
Proof.
  apply (server_port_collision "amf" "upf").
  - cbn. auto.
  - discriminate.
  - reflexivity.
Defined.

End PortTable.

(** ** The header decoder, read backwards *)

Section HeaderFacts.

Import NGAPMessage.

Lemma int_of_byte_inj (a b : byte) : int_of_byte a = int_of_byte b -> a = b.
Proof.
  unfold int_of_byte. intros H. apply N2Z.inj in H.
  apply (f_equal Byte.of_N) in H. rewrite !Byte.of_to_N in H.
  injection H as ->. reflexivity.
Qed.

(** A decoded header has fields within the range of what was read, one or
    two bytes, and fixes the first four bytes of the message: two
    messages decoded to the same header start with the same four bytes. *)
Theorem decode_header_injective (data1 data2 : bytes) (h : header) :
  decode_header data1 = Ok (Some h) ->
  decode_header data2 = Ok (Some h) ->
  firstn 4 data1 = firstn 4 data2
  /\ 4 <= len data1
  /\ 0 <= procedure_code h <= 255
  /\ 0 <= criticality h <= 255
  /\ 0 <= header_length h <= 65535.
Proof.
  intros H1 H2.
  assert (Hshape : forall d, decode_header d = Ok (Some h) ->
            exists b0 b1 b2 b3 rest,
              d = b0 :: b1 :: b2 :: b3 :: rest
              /\ procedure_code h = int_of_byte b0
              /\ criticality h = int_of_byte b1
              /\ header_length h = 256 * int_of_byte b2 + int_of_byte b3).
  { intros d Hd.
    destruct d as [|b0 [|b1 [|b2 [|b3 rest]]]]; try discriminate.
    rewrite decode_header_cons in Hd. injection Hd as <-.
    exists b0, b1, b2, b3, rest. repeat split; reflexivity. }
  destruct (Hshape _ H1) as (a0 & a1 & a2 & a3 & r1 & -> & P1 & C1 & L1).
  destruct (Hshape _ H2) as (b0 & b1 & b2 & b3 & r2 & -> & P2 & C2 & L2).
  pose proof (int_of_byte_range a0). pose proof (int_of_byte_range a1).
  pose proof (int_of_byte_range a2). pose proof (int_of_byte_range a3).
  pose proof (int_of_byte_range b2). pose proof (int_of_byte_range b3).
  pose proof (len_nonneg r1).
  split; [|rewrite !len_cons; lia].
  cbn [firstn]. f_equal; [apply int_of_byte_inj; congruence|].
  f_equal; [apply int_of_byte_inj; congruence|].
  f_equal; [apply int_of_byte_inj; lia|].
  f_equal. apply int_of_byte_inj; lia.
Qed.

Lemma decode_header_injective_witness :
  firstn 4 [x15; x00; x01; x02; xff]%byte = firstn 4 [x15; x00; x01; x02]%byte
  /\ 4 <= len [x15; x00; x01; x02; xff]%byte
  /\ 0 <= 21 <= 255
  /\ 0 <= 0 <= 255
  /\ 0 <= 258 <= 65535.
Proof.
  apply (decode_header_injective [x15; x00; x01; x02; xff]%byte
           [x15; x00; x01; x02]%byte
           {| procedure_code := 21; criticality := 0; header_length := 258 |}).
  - reflexivity.
  - reflexivity.
Defined.

End HeaderFacts.

(** ** Shutdown against the handlers still running *)

Section Shutdown.

(** After [stop], the [finally] clauses of the handler threads that are
    still running find their keys gone and change nothing: whatever calls
    those threads still make, the registry stays empty as long as no new
    connection registers. *)
Theorem registry_empty_after_stop
    (self : MockAMF.state) (on_close : handle -> outcome) (t : trace) :
  Forall (fun ev => match ev with Register _ _ => False | _ => True end) t ->
  registry_after t (MockAMF.connections (fst (MockAMF.stop self on_close))) = ∅.
Proof.
  intros Ht.
  assert (Hempty : MockAMF.connections (fst (MockAMF.stop self on_close)) = ∅).
  { unfold MockAMF.stop. cbn [MockAMF.connections].
    rewrite close_each_swallows. reflexivity. }
  rewrite Hempty. clear Hempty.
  induction Ht as [|ev t Hev _ IH]; [reflexivity|].
  destruct ev; try contradiction; exact IH.
Qed.

Lemma registry_empty_after_stop_witness :
  registry_after
    [Recv 7%nat 4096 (Some 5%positive) (Raise OSError);
     Unregister "10.0.0.1:5000"; Close 7%nat]
    (MockAMF.connections
       (fst (MockAMF.stop
               {| MockAMF.addr := "127.0.0.4"; MockAMF.port := 38412;
                  MockAMF.running := true;
                  MockAMF.connections :=
                    {[ "10.0.0.1:5000"%string := 7%nat ]} |}
               (fun _ => Raises OSError))))
  = ∅.
Proof.
  apply (registry_empty_after_stop _ (fun _ => Raises OSError)).
  repeat constructor.
Defined.

End Shutdown.
